(** * pilomar: [src/utils/timer.py]

    A shallow embedding of the two classes of [timer.py], [ProgressTimer]
    and [Timer], and the properties of them that the specification states.

    Conventions of the embedding.
    - A [datetime] is an integer number of microseconds since the epoch
      (the resolution of Python's [datetime]); a [timedelta] is an integer
      number of microseconds.  [timedelta(seconds=n)] for an integer [n] is
      [n * 1000000].
      Datetimes are not bounded: the [OverflowError] of Python's date
      arithmetic, past the year 9999 or before the year 1, is not part of
      the embedding.
    - A Python [float] is an exact rational ([Q]); [round(x, 0)] rounds half
      to even, as Python does.  A double can differ from the rational in its
      last place, so where a quotient lies exactly on a rounding tie the
      program may round the other way; the theorems on [elapsed_pc] and
      [get_eta] do not rest on the side a tie falls.
    - The system clock is an input of the program: [clock i] is the value
      the [i]-th call of [datetime.now(timezone.utc)] returns.  The state a
      method runs in holds the object ([self]) and the number of clock
      readings taken so far.
    - A method is a computation in a small state-and-exception monad.  A
      [while] loop takes fuel; running out of it is the outcome [OutOfFuel],
      which is not a Python result: it says that the loop had not finished
      after that many iterations. *)

From Stdlib Require Import ZArith QArith Qround Bool List Lia Lqa String.
Import ListNotations.

Local Open Scope Z_scope.

(** ** Outcomes and the method monad *)

(** The only exception the module can raise by itself. *)
Inductive exn : Type :=
| ZeroDivisionError.

Section MethodMonad.

Context {St : Type}.

(** What a computation started in a state ends with: a value, a raised
    exception, or no answer within the fuel given.  Each carries the state
    reached. *)
Inductive outcome (A : Type) : Type :=
| Ok (a : A) (s : St)
| Raise (e : exn) (s : St)
| OutOfFuel (s : St).

Definition M (A : Type) : Type := St -> outcome A.

Definition ret {A} (a : A) : M A := fun s => Ok A a s.

Definition bind {A B} (m : M A) (k : A -> M B) : M B :=
  fun s =>
    match m s with
    | Ok _ a s' => k a s'
    | Raise _ e s' => Raise B e s'
    | OutOfFuel _ s' => OutOfFuel B s'
    end.

Definition raise {A} (e : exn) : M A := fun s => Raise A e s.

Definition out_of_fuel {A} : M A := fun s => OutOfFuel A s.

(** The state an outcome was reached in. *)
Definition final {A} (o : outcome A) : St :=
  match o with
  | Ok _ _ s => s
  | Raise _ _ s => s
  | OutOfFuel _ s => s
  end.

End MethodMonad.

Arguments outcome : clear implicits.
Arguments M : clear implicits.
Arguments Ok {St A} a s.
Arguments Raise {St A} e s.
Arguments OutOfFuel {St A} s.

Notation "x <- m ;; k" := (bind m (fun x => k))
  (at level 61, m at next level, right associativity).
Notation "m ;;; k" := (bind m (fun _ => k))
  (at level 61, right associativity).

(** ** The running state: an object and the clock readings consumed *)

Record Env (O : Type) : Type := mkEnv {
  self : O;
  reads : nat
}.
Arguments mkEnv {O} self reads.
Arguments self {O} e.
Arguments reads {O} e.

(** The system clock: the value of each successive reading, in microseconds. *)
Definition Clock : Type := nat -> Z.

Section Clocked.

Variable clock : Clock.
Context {O : Type}.

(** [datetime.now(timezone.utc)]: the next reading of the clock. *)
Definition now_utc : M (Env O) Z :=
  fun s => Ok (clock (reads s)) (mkEnv (self s) (S (reads s))).

(** Reading the fields of [self]. *)
Definition get : M (Env O) O := fun s => Ok (self s) s.

(** Assigning to fields of [self]. *)
Definition modify (f : O -> O) : M (Env O) unit :=
  fun s => Ok tt (mkEnv (f (self s)) (reads s)).

(** [threading.Event().wait(t)]: the thread blocks; the time that passes
    shows in the next reading of the clock. *)
Definition sleep (seconds : Q) : M (Env O) unit := ret tt.

End Clocked.

(** ** Time and floats *)

(** [timedelta(seconds=n)], in microseconds. *)
Definition timedelta (seconds : Z) : Z := seconds * 1000000.

(** [timedelta.total_seconds()]: microseconds as a float number of seconds. *)
Definition total_seconds (d : Z) : Q := inject_Z d / inject_Z 1000000.

(** [x < y] on floats. *)
Definition Qlt_bool (x y : Q) : bool := negb (Qle_bool y x).

(** True division: [x / y] raises [ZeroDivisionError] when [y] is zero. *)
Definition truediv {St} (x y : Q) : M St Q :=
  if Qeq_bool y 0 then raise ZeroDivisionError else ret (x / y)%Q.

(** [round(x, 0)]: the nearest integer, a tie going to the even one. *)
Definition round_half_even (x : Q) : Z :=
  let f := Qfloor x in
  match (x - inject_Z f ?= 1 # 2)%Q with
  | Lt => f
  | Gt => f + 1
  | Eq => if Z.even f then f else f + 1
  end.

(** ** ProgressTimer *)

Module ProgressTimer.

Record t : Type := mk {
  name : string;
  start : Z;
  current : Z;
  target : Z;
  start_time : Z
}.

Definition set_current (v : Z) (o : t) : t :=
  mk (name o) (start o) v (target o) (start_time o).

Section Methods.

Variable clock : Clock.

(** [ProgressTimer(name, target, start=0, initial=None)], constructed
    when [n] clock readings have been taken. *)
Definition init (name : string) (target : Z) (start : Z)
    (initial : option Z) (n : nat) : Env t :=
  let current := match initial with Some i => i | None => start end in
  mkEnv (mk name start current target (clock n)) (S n).

(** [self.current = count]. *)
Definition update_count (count : Z) : M (Env t) unit :=
  modify (set_current count).

(** [return 100 * (self.current - self.start) / (self.target - self.start)]:
    integer operands, true division. *)
Definition get_percent : M (Env t) Q :=
  o <- get ;;
  truediv (inject_Z (100 * (current o - start o)))
          (inject_Z (target o - start o)).

(** The clock is read before [get_percent()] is called, as Python evaluates
    the product before the divisor. *)
Definition get_total_seconds : M (Env t) Q :=
  o <- get ;;
  let temp := current o - start o in
  if negb (temp =? 0) then
    now <- now_utc clock ;;
    pc <- get_percent ;;
    truediv (total_seconds (now - start_time o) * 100)%Q pc
  else ret 0%Q.

(** [timedelta(seconds=temp)] of a float rounds to the nearest
    microsecond; the sum with [start_time] is taken without a bound on the
    date. *)
Definition get_eta : M (Env t) Z :=
  temp <- get_total_seconds ;;
  o <- get ;;
  if negb (Qeq_bool temp 0) then
    ret (start_time o + round_half_even (temp * inject_Z 1000000))
  else ret (start_time o).

End Methods.

End ProgressTimer.

(** ** Timer *)

Module Timer.

Record t : Type := mk {
  period : Z;
  next_trigger : Z;
  skip_events : bool;
  force_trigger : bool
}.

Definition set_next_trigger_field (v : Z) (o : t) : t :=
  mk (period o) v (skip_events o) (force_trigger o).

Definition set_force_trigger (v : bool) (o : t) : t :=
  mk (period o) (next_trigger o) (skip_events o) v.

Section Methods.

Variable clock : Clock.

(** [Timer(period, offset=0, skip=True)], constructed when [n] clock
    readings have been taken. *)
Definition init (period offset : Z) (skip : bool) (n : nat) : Env t :=
  let period := if period <? 1 then 1 else period in
  let next_trigger :=
    if offset =? 0 then clock n + timedelta period
    else clock n + timedelta offset in
  mkEnv (mk period next_trigger skip false) (S n).

(** The loop of [set_next_trigger]:
    [while self.next_trigger <= self.now_utc(): self.next_trigger += period]. *)
Fixpoint skip_missed (fuel : nat) : M (Env t) unit :=
  match fuel with
  | O => out_of_fuel
  | S fuel' =>
      o <- get ;;
      now <- now_utc clock ;;
      if next_trigger o <=? now then
        modify (set_next_trigger_field
                  (next_trigger o + timedelta (period o))) ;;;
        skip_missed fuel'
      else ret tt
  end.

(** With [skip_events] the loop above; otherwise one period is added once.
    [force_trigger] is cleared in both cases. *)
Definition set_next_trigger (fuel : nat) : M (Env t) unit :=
  o <- get ;;
  (if skip_events o then skip_missed fuel
   else modify (set_next_trigger_field
                  (next_trigger o + timedelta (period o)))) ;;;
  modify (set_force_trigger false).

(** Seconds since the start of the current interval, which is one period
    before [next_trigger]. *)
Definition elapsed : M (Env t) Q :=
  o <- get ;;
  let starttime := next_trigger o - timedelta (period o) in
  now <- now_utc clock ;;
  ret (total_seconds (now - starttime)).

(** [round(100 * self.elapsed() / self.period, 0)], the quotient taken as an
    exact rational. *)
Definition elapsed_pc : M (Env t) Q :=
  e <- elapsed ;;
  o <- get ;;
  x <- truediv (100 * e)%Q (inject_Z (period o)) ;;
  ret (inject_Z (round_half_even x)).

(** Seconds until [next_trigger], and [0.0] when that is negative. *)
Definition remaining : M (Env t) Q :=
  o <- get ;;
  now <- now_utc clock ;;
  let result := total_seconds (next_trigger o - now) in
  if Qlt_bool result 0 then ret 0%Q else ret result.

(** [if self.next_trigger < self.now_utc() or self.force_trigger]: the clock
    is read first, whatever the flag. *)
Definition due (fuel : nat) : M (Env t) bool :=
  o <- get ;;
  now <- now_utc clock ;;
  if (next_trigger o <? now) || force_trigger o then
    set_next_trigger fuel ;;; ret true
  else ret false.

(** [while self.due() is False: t = self.remaining(); if t > 0: sleep].
    The fuel bounds the polls, and the catch-up loop inside each poll. *)
Fixpoint wait (fuel : nat) : M (Env t) bool :=
  match fuel with
  | O => out_of_fuel
  | S fuel' =>
      d <- due (S fuel') ;;
      if d then ret true
      else
        t <- remaining ;;
        (if Qlt_bool 0 t then sleep t else ret tt) ;;;
        wait fuel'
  end.

(** [next_trigger] becomes the clock reading plus one period. *)
Definition restart : M (Env t) bool :=
  o <- get ;;
  now <- now_utc clock ;;
  modify (set_next_trigger_field (now + timedelta (period o))) ;;;
  modify (set_force_trigger false) ;;;
  ret true.

(** [self.force_trigger = True]; the clock is not read. *)
Definition trigger : M (Env t) bool :=
  modify (set_force_trigger true) ;;;
  ret true.

End Methods.

End Timer.

(** ** Calls on a Timer, and what the clock must do for them to return *)

(** The catch-up loop of [set_next_trigger], started with [n] clock readings
    taken and the fields of [o], stops at the first turn [k] whose reading
    lies before the trigger time advanced [k] periods.  It returns exactly
    when there is such a [k]; a clock that jumped a period or more from
    every reading to the next would keep it running. *)
Definition catches_up (clock : Clock) (n : nat) (o : Timer.t) : Prop :=
  exists k : nat,
    clock (n + k)%nat
    < Timer.next_trigger o + Z.of_nat k * timedelta (Timer.period o).

(** Whether a [due()] call that reads [now] fires. *)
Definition fires (o : Timer.t) (now : Z) : bool :=
  (Timer.next_trigger o <? now) || Timer.force_trigger o.

(** [keeps_period m]: however [m] ends (with a value, an exception, or cut
    short by the fuel), the state it has reached has the period it started
    with. *)
Definition keeps_period {A} (m : M (Env Timer.t) A) : Prop :=
  forall s : Env Timer.t,
    Timer.period (self (final (m s))) = Timer.period (self s).

(** The methods a caller may invoke on a constructed Timer. *)
Inductive call : Type :=
| CallDue
| CallRestart
| CallTrigger
| CallWait
| CallElapsed
| CallElapsedPc
| CallRemaining.

Definition invoke (clock : Clock) (fuel : nat) (c : call)
  : M (Env Timer.t) unit :=
  match c with
  | CallDue => Timer.due clock fuel ;;; ret tt
  | CallRestart => Timer.restart clock ;;; ret tt
  | CallTrigger => Timer.trigger ;;; ret tt
  | CallWait => Timer.wait clock fuel ;;; ret tt
  | CallElapsed => Timer.elapsed clock ;;; ret tt
  | CallElapsedPc => Timer.elapsed_pc clock ;;; ret tt
  | CallRemaining => Timer.remaining clock ;;; ret tt
  end.

(** A sequence of calls, one after the other. *)
Fixpoint invoke_all (clock : Clock) (fuel : nat) (cs : list call)
  : M (Env Timer.t) unit :=
  match cs with
  | [] => ret tt
  | c :: cs' => invoke clock fuel c ;;; invoke_all clock fuel cs'
  end.

(** ** Clocks used in the worked runs *)

(** A clock that shows the same time at every reading. *)
Definition clock_frozen (now : Z) : Clock := fun _ => now.

(** A clock that shows 0 at its first reading and 12 seconds at every later
    one. *)
Definition clock_12s : Clock :=
  fun i => match i with O => 0 | S _ => timedelta 12 end.

(** A clock that advances two seconds from each reading to the next. *)
Definition clock_ticking : Clock := fun i => Z.of_nat i * timedelta 2.

(** ** Abbreviations used in the further properties *)

(** The quotient [get_percent()] computes from the fields of [o]. *)
Definition percent_of (o : ProgressTimer.t) : Q :=
  inject_Z (100 * (ProgressTimer.current o - ProgressTimer.start o))
  / inject_Z (ProgressTimer.target o - ProgressTimer.start o).

(** [m] calls of [due()] in a row, with what each returned. *)
Fixpoint due_n (clock : Clock) (fuel : nat) (m : nat)
  : M (Env Timer.t) (list bool) :=
  match m with
  | O => ret []
  | S m' =>
      b <- Timer.due clock fuel ;;
      bs <- due_n clock fuel m' ;;
      ret (b :: bs)
  end.

(** [never_raises m]: started on a Timer with [period >= 1], [m] does not
    end with an exception of the embedding (a [ZeroDivisionError]), and the
    Timer it has reached has the same period. *)
Definition never_raises {A} (m : M (Env Timer.t) A) : Prop :=
  forall s : Env Timer.t,
    1 <= Timer.period (self s) ->
    match m s with
    | Raise _ _ => False
    | Ok _ s' | OutOfFuel s' => Timer.period (self s') = Timer.period (self s)
    end.


(** * Properties *)

(** ** Rounding *)

Lemma Qlt_bool_iff (x y : Q) : Qlt_bool x y = true <-> (x < y)%Q.
Proof.
  unfold Qlt_bool. rewrite negb_true_iff.
  split; intro H.
  - apply Qnot_le_lt. intro L. apply Qle_bool_iff in L. congruence.
  - destruct (Qle_bool y x) eqn:E; [ | reflexivity ].
    apply Qle_bool_iff in E. exfalso. apply (Qlt_not_le _ _ H E).
Qed.

(** The integer part of [x] lies between two consecutive integers. *)
Lemma Qfloor_bounds (x : Q) :
  (inject_Z (Qfloor x) <= x /\ x < inject_Z (Qfloor x) + 1)%Q.
Proof.
  split; [ apply Qfloor_le | ].
  generalize (Qlt_floor x). rewrite inject_Z_plus. trivial.
Qed.

Lemma inject_Z_le_inv (a b : Z) : (inject_Z a <= inject_Z b)%Q -> a <= b.
Proof. rewrite Zle_Qle. trivial. Qed.



(** ** Floats that come from integers *)

Lemma Qeq_bool_inject_Z_0 (d : Z) : Qeq_bool (inject_Z d) 0 = (d =? 0).
Proof.
  unfold Qeq_bool, inject_Z; simpl. rewrite Z.mul_1_r.
  destruct d; reflexivity.
Qed.

Lemma inject_Z_nonzero (d : Z) : d <> 0 -> ~ (inject_Z d == 0)%Q.
Proof.
  intros Hd H. apply Hd.
  apply (inject_Z_injective d 0). exact H.
Qed.

(** A quotient of two non-zero floats is not zero. *)
Lemma Qdiv_nonzero (x y : Q) : ~ (x == 0)%Q -> ~ (y == 0)%Q -> ~ (x / y == 0)%Q.
Proof.
  intros Hx Hy H. apply Hx.
  rewrite <- (Qmult_div_r x y Hy), H. ring.
Qed.

Lemma Qeq_bool_false (x y : Q) : ~ (x == y)%Q -> Qeq_bool x y = false.
Proof.
  intro H. destruct (Qeq_bool x y) eqn:E; [ | reflexivity ].
  apply Qeq_bool_iff in E. contradiction.
Qed.

(** ** ProgressTimer *)

Section ProgressTimerFacts.

Import ProgressTimer.

Variable clock : Clock.

Lemma get_percent_defined (o : ProgressTimer.t) (n : nat) :
  target o <> start o ->
  get_percent (mkEnv o n) =
    Ok (inject_Z (100 * (current o - start o))
        / inject_Z (target o - start o))%Q (mkEnv o n).
Proof.
  intro H. unfold get_percent, bind, get, truediv; simpl.
  rewrite Qeq_bool_inject_Z_0.
  destruct (Z.eqb_spec (target o - start o) 0); [ lia | reflexivity ].
Qed.

Lemma get_percent_raises (o : ProgressTimer.t) (n : nat) :
  target o = start o ->
  get_percent (mkEnv o n) = Raise ZeroDivisionError (mkEnv o n).
Proof.
  intro H. unfold get_percent, bind, get, truediv; simpl.
  rewrite Qeq_bool_inject_Z_0, H, Z.sub_diag. reflexivity.
Qed.

(** C7. [get_percent()] returns [100 * (current - start) / (target - start)]
    when [target != start]; it raises [ZeroDivisionError] if and only if
    [target == start] (the division itself fails: nothing checks the
    operands beforehand); and in both cases the object is left as it
    was. *)
Theorem get_percent_spec (o : ProgressTimer.t) (n : nat) :
  (target o <> start o ->
     get_percent (mkEnv o n) =
       Ok (inject_Z (100 * (current o - start o))
           / inject_Z (target o - start o))%Q (mkEnv o n))
  /\ (target o = start o ->
        get_percent (mkEnv o n) = Raise ZeroDivisionError (mkEnv o n))
  /\ ((exists e s', get_percent (mkEnv o n) = Raise e s')
      <-> target o = start o)
  /\ final (get_percent (mkEnv o n)) = mkEnv o n.
Proof.
  split; [ apply get_percent_defined | ].
  split; [ apply get_percent_raises | ].
  destruct (Z.eq_dec (target o) (start o)) as [E | E].
  - rewrite (get_percent_raises o n E). split; [ | reflexivity ].
    split; [ trivial | intros _; eauto ].
  - rewrite (get_percent_defined o n E). split; [ | reflexivity ].
    split; [ intros (e & s' & H); discriminate | contradiction ].
Qed.

(** C8. [get_total_seconds()] returns 0 when [current == start]; otherwise
    it reads the clock and returns the seconds elapsed since [start_time],
    times 100, divided by [get_percent()] (whose [ZeroDivisionError] it
    passes on when [target == start]).  With [start = 0], [target = 100],
    [current = 50] and 10 seconds elapsed the result is 20. *)
Theorem get_total_seconds_spec (o : ProgressTimer.t) (n : nat) :
  (current o = start o ->
     get_total_seconds clock (mkEnv o n) = Ok 0%Q (mkEnv o n))
  /\ (current o <> start o -> target o <> start o ->
        exists pc,
          get_percent (mkEnv o (S n)) = Ok pc (mkEnv o (S n))
          /\ ~ (pc == 0)%Q
          /\ get_total_seconds clock (mkEnv o n) =
               Ok (total_seconds (clock n - start_time o) * 100 / pc)%Q
                  (mkEnv o (S n)))
  /\ (current o <> start o -> target o = start o ->
        get_total_seconds clock (mkEnv o n) =
          Raise ZeroDivisionError (mkEnv o (S n)))
  /\ (start o = 0 -> target o = 100 -> current o = 50 ->
      clock n = start_time o + timedelta 10 ->
        exists q,
          get_total_seconds clock (mkEnv o n) = Ok q (mkEnv o (S n))
          /\ (q == 20)%Q).
Proof.
  assert (Hgo : forall pc, current o <> start o ->
            get_percent (mkEnv o (S n)) = Ok pc (mkEnv o (S n)) ->
            ~ (pc == 0)%Q ->
            get_total_seconds clock (mkEnv o n) =
              Ok (total_seconds (clock n - start_time o) * 100 / pc)%Q
                 (mkEnv o (S n))).
  { intros pc Hc Hp Hz.
    unfold get_total_seconds, bind at 1, get; simpl.
    destruct (Z.eqb_spec (current o - start o) 0); [ lia | ]; simpl.
    unfold bind, now_utc; simpl. rewrite Hp.
    unfold truediv. rewrite (Qeq_bool_false _ _ Hz). reflexivity. }
  assert (Hpc : current o <> start o -> target o <> start o ->
            ~ (inject_Z (100 * (current o - start o))
               / inject_Z (target o - start o) == 0)%Q).
  { intros Hc Ht. apply Qdiv_nonzero; apply inject_Z_nonzero; lia. }
  repeat split.
  - intro H. unfold get_total_seconds, bind, get; simpl.
    rewrite H, Z.sub_diag. reflexivity.
  - intros Hc Ht. eexists. split; [ apply get_percent_defined; exact Ht | ].
    split; [ apply Hpc; assumption | ].
    apply Hgo; [ assumption | apply get_percent_defined; exact Ht | ].
    apply Hpc; assumption.
  - intros Hc Ht.
    unfold get_total_seconds, bind at 1, get; simpl.
    destruct (Z.eqb_spec (current o - start o) 0); [ lia | ]; simpl.
    unfold bind, now_utc; simpl.
    rewrite (get_percent_raises o (S n) Ht). reflexivity.
  - intros Hs Ht Hc Hn.
    assert (Hc' : current o <> start o) by lia.
    assert (Ht' : target o <> start o) by lia.
    eexists. split.
    + apply Hgo; [ exact Hc' | apply get_percent_defined; exact Ht' | ].
      apply Hpc; assumption.
    + rewrite Hn, Hs, Ht, Hc.
      replace (start_time o + timedelta 10 - start_time o)
        with (timedelta 10) by lia.
      vm_compute. reflexivity.
Qed.

End ProgressTimerFacts.

(** ** Timer: the catch-up loop *)

Section TimerFacts.

Import Timer.

Variable clock : Clock.

Lemma set_next_trigger_field_same (o : Timer.t) :
  set_next_trigger_field (next_trigger o) o = o.
Proof. destruct o; reflexivity. Qed.

(** One turn of the loop, when the trigger time has been reached. *)
Lemma skip_missed_step (fuel : nat) (o : Timer.t) (n : nat) :
  next_trigger o <= clock n ->
  skip_missed clock (S fuel) (mkEnv o n) =
    skip_missed clock fuel
      (mkEnv (set_next_trigger_field
                (next_trigger o + timedelta (period o)) o) (S n)).
Proof.
  intro H. simpl. unfold bind at 1, get; simpl.
  unfold bind at 1, now_utc; simpl.
  destruct (Z.leb_spec (next_trigger o) (clock n)); [ | lia ].
  reflexivity.
Qed.

(** The exit of the loop, when the trigger time lies ahead. *)
Lemma skip_missed_exit (fuel : nat) (o : Timer.t) (n : nat) :
  clock n < next_trigger o ->
  skip_missed clock (S fuel) (mkEnv o n) = Ok tt (mkEnv o (S n)).
Proof.
  intro H. simpl. unfold bind at 1, get; simpl.
  unfold bind at 1, now_utc; simpl.
  destruct (Z.leb_spec (next_trigger o) (clock n)); [ lia | ].
  reflexivity.
Qed.

(** The loop makes [k] turns when the first [k] readings have each reached
    the trigger time of their turn and the next one has not. *)
Lemma skip_missed_run (k : nat) :
  forall (fuel : nat) (o : Timer.t) (n : nat),
    (forall j, (j < k)%nat ->
       next_trigger o + Z.of_nat j * timedelta (period o)
       <= clock (n + j)%nat) ->
    clock (n + k)%nat
    < next_trigger o + Z.of_nat k * timedelta (period o) ->
    (k < fuel)%nat ->
    skip_missed clock fuel (mkEnv o n) =
      Ok tt (mkEnv (set_next_trigger_field
                      (next_trigger o
                       + Z.of_nat k * timedelta (period o)) o)
                   (S (n + k))).
Proof.
  induction k as [ | k IH]; intros fuel o n Hbefore Hstop Hfuel;
    (destruct fuel as [ | fuel]; [ lia | ]).
  - rewrite Nat.add_0_r in *. simpl Z.of_nat in *.
    rewrite Z.mul_0_l, Z.add_0_r in *.
    rewrite skip_missed_exit by assumption.
    now rewrite set_next_trigger_field_same.
  - assert (H0 : next_trigger o <= clock n).
    { specialize (Hbefore O ltac:(lia)).
      rewrite Nat.add_0_r in Hbefore. change (Z.of_nat 0) with 0 in Hbefore.
      lia. }
    rewrite (skip_missed_step fuel o n H0).
    set (o' := set_next_trigger_field
                 (next_trigger o + timedelta (period o)) o).
    assert (Hp : period o' = period o) by reflexivity.
    assert (Hn : next_trigger o' = next_trigger o + timedelta (period o))
      by reflexivity.
    rewrite (IH fuel o' (S n)).
    + rewrite Hp, Hn, Nat2Z.inj_succ.
      replace (S (S n + k)) with (S (n + S k)) by lia.
      unfold o', set_next_trigger_field; cbn [period skip_events force_trigger].
      do 3 f_equal. lia.
    + intros j Hj. rewrite Hp, Hn.
      specialize (Hbefore (S j) ltac:(lia)).
      rewrite Nat2Z.inj_succ in Hbefore.
      replace (S n + j)%nat with (n + S j)%nat by lia. lia.
    + rewrite Hp, Hn. rewrite Nat2Z.inj_succ in Hstop.
      replace (S n + k)%nat with (n + S k)%nat by lia. lia.
    + lia.
Qed.

(** A clock that lets the loop stop has a first reading at which it
    stops. *)
Lemma catches_up_first (n : nat) (o : Timer.t) :
  catches_up clock n o ->
  exists k : nat,
    (forall j, (j < k)%nat ->
       next_trigger o + Z.of_nat j * timedelta (period o)
       <= clock (n + j)%nat)
    /\ clock (n + k)%nat
       < next_trigger o + Z.of_nat k * timedelta (period o).
Proof.
  intros [k Hk]. revert n o Hk.
  induction k as [ | k IH]; intros n o Hk.
  - exists O. split; [ intros j Hj; lia | exact Hk ].
  - destruct (Z.le_gt_cases (next_trigger o) (clock n)) as [Hle | Hgt].
    + set (o' := set_next_trigger_field
                   (next_trigger o + timedelta (period o)) o).
      destruct (IH (S n) o') as (k' & Hbefore & Hstop).
      { unfold o'; cbn [next_trigger period set_next_trigger_field].
        rewrite Nat2Z.inj_succ in Hk.
        replace (S n + k)%nat with (n + S k)%nat by lia. lia. }
      unfold o' in Hbefore, Hstop;
        cbn [next_trigger period set_next_trigger_field] in Hbefore, Hstop.
      exists (S k'). split.
      * intros [ | j] Hj.
        -- rewrite Nat.add_0_r. change (Z.of_nat 0) with 0. lia.
        -- specialize (Hbefore j ltac:(lia)). rewrite Nat2Z.inj_succ.
           replace (n + S j)%nat with (S n + j)%nat by lia. lia.
      * rewrite Nat2Z.inj_succ.
        replace (n + S k')%nat with (S n + k')%nat by lia. lia.
    + exists O. split; [ intros j Hj; lia | ].
      rewrite Nat.add_0_r. change (Z.of_nat 0) with 0. lia.
Qed.

(** ** Timer: [due] *)

Lemma fires_iff (o : Timer.t) (now : Z) :
  fires o now = true <-> next_trigger o < now \/ force_trigger o = true.
Proof.
  unfold fires. rewrite orb_true_iff, Z.ltb_lt. tauto.
Qed.

(** A call that does not fire reads the clock once and changes nothing. *)
Lemma due_idle (fuel : nat) (o : Timer.t) (n : nat) :
  fires o (clock n) = false ->
  due clock fuel (mkEnv o n) = Ok false (mkEnv o (S n)).
Proof.
  intro H. unfold due, bind at 1, get; simpl.
  unfold bind at 1, now_utc; simpl.
  unfold fires in H. rewrite H. reflexivity.
Qed.

(** A firing call of a timer that replays missed events. *)
Lemma due_replay (fuel : nat) (o : Timer.t) (n : nat) :
  skip_events o = false ->
  fires o (clock n) = true ->
  due clock fuel (mkEnv o n) =
    Ok true
       (mkEnv (mk (period o) (next_trigger o + timedelta (period o))
                  false false)
              (S n)).
Proof.
  intros Hs H. unfold due, bind at 1, get; simpl.
  unfold bind at 1, now_utc; simpl.
  unfold fires in H. rewrite H.
  unfold set_next_trigger, bind, get, modify; simpl.
  rewrite Hs; simpl.
  unfold ret, set_force_trigger, set_next_trigger_field; simpl.
  rewrite Hs. reflexivity.
Qed.

(** A firing call of a timer that skips missed events, when the catch-up
    loop makes [k] turns. *)
Lemma due_skip (k fuel : nat) (o : Timer.t) (n : nat) :
  skip_events o = true ->
  fires o (clock n) = true ->
  (forall j, (j < k)%nat ->
     next_trigger o + Z.of_nat j * timedelta (period o)
     <= clock (S n + j)%nat) ->
  clock (S n + k)%nat
  < next_trigger o + Z.of_nat k * timedelta (period o) ->
  (k < fuel)%nat ->
  due clock fuel (mkEnv o n) =
    Ok true
       (mkEnv (mk (period o)
                  (next_trigger o + Z.of_nat k * timedelta (period o))
                  true false)
              (S (S n + k))).
Proof.
  intros Hs H Hbefore Hstop Hfuel. unfold due, bind at 1, get; cbn [self].
  unfold bind at 1, now_utc; cbn [self reads].
  unfold fires in H. rewrite H.
  unfold set_next_trigger. unfold bind at 1. unfold bind at 1, get.
  cbn [self]. rewrite Hs. unfold bind at 1.
  rewrite (skip_missed_run k fuel o (S n) Hbefore Hstop Hfuel).
  unfold modify, ret, set_force_trigger, set_next_trigger_field; simpl.
  rewrite Hs. reflexivity.
Qed.

(** C1, as the code has it.  With enough fuel for the catch-up loop,
    [due()] returns true exactly when the clock it reads is strictly after
    [next_trigger] or [force_trigger] is set.  When it returns false the
    Timer is unchanged.  When it returns true, [force_trigger] is cleared,
    [period] and [skip_events] are kept and [next_trigger] has moved by a
    whole number of periods: strictly forward, except that a timer that
    skips missed events and whose [next_trigger] is still ahead of the
    clock (a forced firing) keeps its [next_trigger]. *)
Theorem due_spec (o : Timer.t) (n : nat) :
  1 <= period o ->
  (skip_events o = true -> catches_up clock (S n) o) ->
  exists fuel0 : nat, forall fuel : nat, (fuel0 <= fuel)%nat ->
  exists (o' : Timer.t) (n' : nat),
    due clock fuel (mkEnv o n) = Ok (fires o (clock n)) (mkEnv o' n')
    /\ (fires o (clock n) = true
        <-> next_trigger o < clock n \/ force_trigger o = true)
    /\ (fires o (clock n) = false -> o' = o /\ n' = S n)
    /\ (fires o (clock n) = true ->
          force_trigger o' = false
          /\ period o' = period o
          /\ skip_events o' = skip_events o
          /\ (exists k : nat,
                next_trigger o'
                = next_trigger o + Z.of_nat k * timedelta (period o))
          /\ (skip_events o = true /\ clock (S n) < next_trigger o ->
                next_trigger o' = next_trigger o)
          /\ (~ (skip_events o = true /\ clock (S n) < next_trigger o) ->
                next_trigger o < next_trigger o')).
Proof.
  intros Hp Hcatch.
  destruct (fires o (clock n)) eqn:F.
  - destruct (skip_events o) eqn:Hs.
    + destruct (catches_up_first (S n) o (Hcatch eq_refl))
        as (k & Hbefore & Hstop).
      exists (S k). intros fuel Hfuel.
      eexists; eexists. split.
      { apply (due_skip k fuel o n Hs F Hbefore Hstop). lia. }
      cbn [force_trigger period skip_events next_trigger].
      split; [ rewrite <- (fires_iff o (clock n)), F; tauto | ].
      split; [ discriminate | ]. intros _.
      repeat split; eauto.
      * intros [_ Hahead].
        destruct k as [ | k]; [ change (Z.of_nat 0) with 0; lia | ].
        specialize (Hbefore O ltac:(lia)).
        rewrite Nat.add_0_r in Hbefore. change (Z.of_nat 0) with 0 in Hbefore.
        lia.
      * intros Hnot.
        destruct k as [ | k].
        -- exfalso. apply Hnot. split; [ reflexivity | ].
           rewrite Nat.add_0_r in Hstop. change (Z.of_nat 0) with 0 in Hstop.
           lia.
        -- rewrite Nat2Z.inj_succ. unfold timedelta. nia.
    + exists O. intros fuel _.
      eexists; eexists. split; [ apply (due_replay fuel o n Hs F) | ].
      cbn [force_trigger period skip_events next_trigger].
      split; [ rewrite <- (fires_iff o (clock n)), F; tauto | ].
      split; [ discriminate | ]. intros _.
      repeat split.
      * exists 1%nat. change (Z.of_nat 1) with 1. lia.
      * intros [Habs _]. discriminate.
      * intros _. unfold timedelta. lia.
  - exists O. intros fuel _. exists o, (S n).
    split; [ apply (due_idle fuel o n F) | ].
    split; [ rewrite <- (fires_iff o (clock n)), F; tauto | ].
    split; [ auto | discriminate ].
Qed.

(** C3. A firing [due()] of a timer with [skip_events = false] adds
    exactly one period to [next_trigger], whether or not the result is
    still behind the clock; so when the clock is already past the trigger
    time by more than a period, two [due()] calls in a row both return
    true, each moving [next_trigger] one period on. *)
Theorem due_replay_spec (fuel : nat) (o : Timer.t) (n : nat) :
  skip_events o = false ->
  (fires o (clock n) = true ->
     due clock fuel (mkEnv o n) =
       Ok true
          (mkEnv (mk (period o) (next_trigger o + timedelta (period o))
                     false false)
                 (S n)))
  /\ (next_trigger o < clock n ->
      next_trigger o + timedelta (period o) < clock (S n) ->
      exists s1 s2 : Env Timer.t,
        due clock fuel (mkEnv o n) = Ok true s1
        /\ next_trigger (self s1) = next_trigger o + timedelta (period o)
        /\ next_trigger (self s1) < clock (reads s1)
        /\ due clock fuel s1 = Ok true s2
        /\ next_trigger (self s2)
           = next_trigger o + 2 * timedelta (period o)).
Proof.
  intro Hs. split; [ apply due_replay; exact Hs | ].
  intros H1 H2.
  assert (F1 : fires o (clock n) = true) by (apply fires_iff; auto).
  eexists; eexists.
  split; [ apply (due_replay fuel o n Hs F1) | ].
  cbn [self reads next_trigger].
  split; [ reflexivity | ]. split; [ exact H2 | ].
  split.
  - rewrite due_replay; cbn [period next_trigger skip_events];
      [ reflexivity | reflexivity | ].
    apply fires_iff. left. exact H2.
  - cbn [self next_trigger]. lia.
Qed.

(** C4. [trigger()] returns true and sets [force_trigger]; [next_trigger],
    [period] and [skip_events] stay as they were and the clock is not
    read.  The [due()] call that follows returns true, whatever the clock
    shows and so whatever [remaining()] would be. *)
Theorem trigger_then_due (o : Timer.t) (n : nat) :
  (skip_events o = true -> catches_up clock (S n) o) ->
  trigger (mkEnv o n) =
    Ok true (mkEnv (mk (period o) (next_trigger o) (skip_events o) true) n)
  /\ exists fuel0 : nat, forall fuel : nat, (fuel0 <= fuel)%nat ->
     exists s' : Env Timer.t,
       due clock fuel (final (trigger (mkEnv o n))) = Ok true s'.
Proof.
  intro Hcatch. split; [ reflexivity | ].
  change (final (trigger (mkEnv o n)))
    with (mkEnv (mk (period o) (next_trigger o) (skip_events o) true) n).
  set (o1 := mk (period o) (next_trigger o) (skip_events o) true).
  assert (F : fires o1 (clock n) = true)
    by (apply fires_iff; right; reflexivity).
  destruct (skip_events o) eqn:Hs.
  - destruct (catches_up_first (S n) o1 (Hcatch eq_refl))
      as (k & Hbefore & Hstop).
    exists (S k). intros fuel Hfuel. eexists.
    apply (due_skip k fuel o1 n eq_refl F Hbefore Hstop). lia.
  - exists O. intros fuel _. eexists.
    apply (due_replay fuel o1 n eq_refl F).
Qed.

(** C5. For [period >= 1], a new [Timer(period, offset)] has
    [next_trigger] one period after the construction time when
    [offset == 0] and [offset] seconds after it otherwise, and a [due()]
    call whose clock reading is before that time returns false. *)
Theorem init_spec (period0 offset : Z) (skip : bool) (n fuel : nat) :
  1 <= period0 ->
  init clock period0 offset skip n =
    mkEnv (mk period0
              (clock n + timedelta (if offset =? 0 then period0 else offset))
              skip false)
          (S n)
  /\ (offset = 0 ->
      next_trigger (self (init clock period0 offset skip n))
      = clock n + timedelta period0)
  /\ (offset <> 0 ->
      next_trigger (self (init clock period0 offset skip n))
      = clock n + timedelta offset)
  /\ (clock (S n)
      < clock n + timedelta (if offset =? 0 then period0 else offset) ->
      due clock fuel (init clock period0 offset skip n) =
        Ok false
           (mkEnv (self (init clock period0 offset skip n)) (S (S n)))).
Proof.
  intro Hp.
  assert (E : init clock period0 offset skip n =
              mkEnv (mk period0
                        (clock n
                         + timedelta (if offset =? 0 then period0 else offset))
                        skip false)
                    (S n)).
  { unfold init. destruct (Z.ltb_spec period0 1); [ lia | ].
    destruct (offset =? 0); reflexivity. }
  rewrite E. cbn [self next_trigger].
  split; [ reflexivity | ].
  split; [ intros ->; reflexivity | ].
  split.
  - intro H. destruct (Z.eqb_spec offset 0); [ contradiction | reflexivity ].
  - intro H. apply due_idle. unfold fires; cbn [next_trigger force_trigger].
    rewrite orb_false_r. apply Z.ltb_ge. lia.
Qed.


(** C2, as the code has it.  A [Timer(period=5, skip=True)] constructed at
    time [T0] and first polled when 12 seconds (and less than 15) have
    passed: [due()] returns true and leaves [next_trigger] at [T0] plus 15
    seconds, the first time on the timer's own five-second grid that is
    after the clock; the two missed ticks give no firing of their own, the
    next [due()] returns false. *)
Theorem due_after_12s_skip (T0 : Z) (fuel : nat) :
  clock O = T0 ->
  (forall i : nat, (1 <= i)%nat ->
     T0 + timedelta 12 <= clock i < T0 + timedelta 15) ->
  (3 <= fuel)%nat ->
  due clock fuel (init clock 5 0 true O) =
    Ok true (mkEnv (mk 5 (T0 + timedelta 15) true false) 5%nat)
  /\ due clock fuel (mkEnv (mk 5 (T0 + timedelta 15) true false) 5%nat) =
       Ok false (mkEnv (mk 5 (T0 + timedelta 15) true false) 6%nat).
Proof.
  intros H0 Hclock Hfuel.
  assert (E : init clock 5 0 true O =
              mkEnv (mk 5 (T0 + timedelta 5) true false) 1%nat).
  { unfold init; simpl. rewrite H0. reflexivity. }
  rewrite E. split.
  - rewrite (due_skip 2 fuel (mk 5 (T0 + timedelta 5) true false) 1).
    + cbn [period next_trigger]. do 3 f_equal. unfold timedelta. lia.
    + reflexivity.
    + apply fires_iff. left. cbn [next_trigger].
      specialize (Hclock 1%nat ltac:(lia)). unfold timedelta in *. lia.
    + intros j Hj. cbn [period next_trigger].
      specialize (Hclock (2 + j)%nat ltac:(lia)).
      assert (j = 0 \/ j = 1)%nat as [-> | ->] by lia;
        unfold timedelta in *; simpl Z.of_nat; lia.
    + cbn [period next_trigger].
      specialize (Hclock (2 + 2)%nat ltac:(lia)).
      unfold timedelta in *. simpl Z.of_nat. lia.
    + lia.
  - apply due_idle. unfold fires; cbn [next_trigger force_trigger].
    rewrite orb_false_r. apply Z.ltb_ge.
    specialize (Hclock 5%nat ltac:(lia)). lia.
Qed.

(** ** Timer: the period is never reassigned *)

Lemma keeps_period_ret {A} (a : A) : keeps_period (ret a).
Proof. intro s; reflexivity. Qed.

Lemma keeps_period_bind {A B} (m : M (Env Timer.t) A)
    (k : A -> M (Env Timer.t) B) :
  keeps_period m -> (forall a, keeps_period (k a)) ->
  keeps_period (bind m k).
Proof.
  intros Hm Hk s. unfold bind. specialize (Hm s).
  destruct (m s) as [a s' | e s' | s']; cbn [final] in *;
    [ rewrite (Hk a s') | | ]; exact Hm.
Qed.

Lemma keeps_period_get : keeps_period get.
Proof. intro s; reflexivity. Qed.

Lemma keeps_period_now_utc : keeps_period (now_utc clock).
Proof. intro s; reflexivity. Qed.

Lemma keeps_period_out_of_fuel {A} :
  keeps_period (@out_of_fuel (Env Timer.t) A).
Proof. intro s; reflexivity. Qed.

Lemma keeps_period_truediv (x y : Q) : keeps_period (truediv x y).
Proof. intro s. unfold truediv. destruct (Qeq_bool y 0); reflexivity. Qed.

Lemma keeps_period_sleep (x : Q) : keeps_period (sleep x).
Proof. intro s; reflexivity. Qed.

Lemma keeps_period_set_next_trigger_field (v : Z) :
  keeps_period (modify (set_next_trigger_field v)).
Proof. intro s; reflexivity. Qed.

Lemma keeps_period_set_force_trigger (v : bool) :
  keeps_period (modify (set_force_trigger v)).
Proof. intro s; reflexivity. Qed.

Create HintDb frame.
#[local] Hint Resolve keeps_period_ret keeps_period_get keeps_period_now_utc
  keeps_period_out_of_fuel keeps_period_truediv keeps_period_sleep
  keeps_period_set_next_trigger_field keeps_period_set_force_trigger
  : frame.

Ltac frame_step :=
  first [ solve [ auto with frame ]
        | match goal with
          | |- keeps_period (if ?c then _ else _) => destruct c
          | |- keeps_period (bind _ _) =>
              apply keeps_period_bind; [ | intro ]
          end ].

Lemma keeps_period_skip_missed (fuel : nat) :
  keeps_period (skip_missed clock fuel).
Proof.
  induction fuel as [ | fuel IH]; cbn [skip_missed]; repeat frame_step.
Qed.
#[local] Hint Resolve keeps_period_skip_missed : frame.

Lemma keeps_period_set_next_trigger (fuel : nat) :
  keeps_period (set_next_trigger clock fuel).
Proof.
  unfold set_next_trigger. repeat frame_step.
Qed.
#[local] Hint Resolve keeps_period_set_next_trigger : frame.

Lemma keeps_period_due (fuel : nat) : keeps_period (due clock fuel).
Proof.
  unfold due. repeat frame_step.
Qed.
#[local] Hint Resolve keeps_period_due : frame.

Lemma keeps_period_remaining : keeps_period (remaining clock).
Proof. unfold remaining. repeat frame_step. Qed.
#[local] Hint Resolve keeps_period_remaining : frame.

Lemma keeps_period_elapsed : keeps_period (elapsed clock).
Proof. unfold elapsed. repeat frame_step. Qed.
#[local] Hint Resolve keeps_period_elapsed : frame.

Lemma keeps_period_elapsed_pc : keeps_period (elapsed_pc clock).
Proof.
  unfold elapsed_pc. repeat frame_step.
Qed.
#[local] Hint Resolve keeps_period_elapsed_pc : frame.

Lemma keeps_period_restart : keeps_period (restart clock).
Proof. unfold restart. repeat frame_step. Qed.
#[local] Hint Resolve keeps_period_restart : frame.

Lemma keeps_period_trigger : keeps_period trigger.
Proof. unfold trigger. repeat frame_step. Qed.
#[local] Hint Resolve keeps_period_trigger : frame.

Lemma keeps_period_wait (fuel : nat) : keeps_period (wait clock fuel).
Proof.
  induction fuel as [ | fuel IH]; cbn [wait]; repeat frame_step.
Qed.
#[local] Hint Resolve keeps_period_wait : frame.

Lemma keeps_period_invoke (fuel : nat) (c : call) :
  keeps_period (invoke clock fuel c).
Proof.
  destruct c; cbn [invoke]; repeat frame_step.
Qed.
#[local] Hint Resolve keeps_period_invoke : frame.

Lemma keeps_period_invoke_all (fuel : nat) (cs : list call) :
  keeps_period (invoke_all clock fuel cs).
Proof.
  induction cs as [ | c cs IH]; cbn [invoke_all]; repeat frame_step.
Qed.

(** C9. Construction is a total function that stores [period] when it is
    at least 1 and 1 otherwise, so a new Timer has [period >= 1]; and no
    call of [due], [restart], [trigger], [wait], [elapsed], [elapsed_pc]
    or [remaining], nor any sequence of such calls, however it ends,
    leaves the Timer with another period. *)
Theorem period_invariant (period0 offset : Z) (skip : bool) (n fuel : nat)
    (cs : list call) :
  period (self (init clock period0 offset skip n)) = Z.max 1 period0
  /\ (period0 < 1 -> period (self (init clock period0 offset skip n)) = 1)
  /\ 1 <= period (self (init clock period0 offset skip n))
  /\ (forall (c : call) (s : Env Timer.t),
        period (self (final (invoke clock fuel c s))) = period (self s))
  /\ period (self (final (invoke_all clock fuel cs
                            (init clock period0 offset skip n))))
     = Z.max 1 period0
  /\ 1 <= period (self (final (invoke_all clock fuel cs
                                 (init clock period0 offset skip n)))).
Proof.
  assert (E : period (self (init clock period0 offset skip n))
              = Z.max 1 period0).
  { unfold init; cbn [self period].
    destruct (Z.ltb_spec period0 1); lia. }
  assert (K := keeps_period_invoke_all fuel cs
                 (init clock period0 offset skip n)).
  repeat split.
  - exact E.
  - intro H. rewrite E. lia.
  - rewrite E. lia.
  - intros c s. apply keeps_period_invoke.
  - rewrite K. exact E.
  - rewrite K, E. lia.
Qed.

(** ** Timer: the elapsed share of the period *)

Lemma elapsed_run (o : Timer.t) (n : nat) :
  elapsed clock (mkEnv o n) =
    Ok (total_seconds
          (clock n - (next_trigger o - timedelta (period o))))
       (mkEnv o (S n)).
Proof. reflexivity. Qed.

Lemma elapsed_pc_run (o : Timer.t) (n : nat) :
  1 <= period o ->
  elapsed_pc clock (mkEnv o n) =
    Ok (inject_Z
          (round_half_even
             (100 * total_seconds
                      (clock n - (next_trigger o - timedelta (period o)))
              / inject_Z (period o))))
       (mkEnv o (S n)).
Proof.
  intro Hp. unfold elapsed_pc, bind at 1. rewrite elapsed_run.
  unfold bind at 1, get; cbn [self]. unfold bind, truediv.
  rewrite Qeq_bool_inject_Z_0.
  destruct (Z.eqb_spec (period o) 0); [ lia | reflexivity ].
Qed.



(** A clock whose readings are each less than a period after the one
    before lets the catch-up loop stop. *)
Lemma slow_clock_catches_up (n : nat) (o : Timer.t) :
  (forall i : nat, (n <= i)%nat ->
     clock (S i) - clock i < timedelta (period o)) ->
  catches_up clock n o.
Proof.
  intro Hslow.
  assert (Hk : forall k : nat,
            clock (n + k)%nat
            <= clock n + Z.of_nat k * (timedelta (period o) - 1)).
  { induction k as [ | k IH].
    - rewrite Nat.add_0_r. change (Z.of_nat 0) with 0. lia.
    - specialize (Hslow (n + k)%nat ltac:(lia)).
      replace (n + S k)%nat with (S (n + k)) by lia.
      rewrite Nat2Z.inj_succ. lia. }
  exists (Z.to_nat (clock n - next_trigger o + 1)).
  specialize (Hk (Z.to_nat (clock n - next_trigger o + 1))).
  assert (HK : clock n - next_trigger o + 1
               <= Z.of_nat (Z.to_nat (clock n - next_trigger o + 1)))
    by lia.
  revert Hk HK.
  generalize (Z.of_nat (Z.to_nat (clock n - next_trigger o + 1))).
  generalize (clock (n + Z.to_nat (clock n - next_trigger o + 1))%nat).
  intros c K Hk HK. lia.
Qed.

(** ** Timer: [remaining], [restart] and [wait] *)

Lemma total_seconds_neg (d : Z) : (total_seconds d < 0)%Q <-> d < 0.
Proof.
  unfold total_seconds, Qlt; simpl. lia.
Qed.

Lemma total_seconds_timedelta (p : Z) :
  (total_seconds (timedelta p) == inject_Z p)%Q.
Proof.
  unfold total_seconds, timedelta, Qeq; simpl. lia.
Qed.

Lemma remaining_run (o : Timer.t) (n : nat) :
  remaining clock (mkEnv o n) =
    Ok (if Qlt_bool (total_seconds (next_trigger o - clock n)) 0
        then 0%Q else total_seconds (next_trigger o - clock n))
       (mkEnv o (S n)).
Proof.
  unfold remaining, bind, get, now_utc; cbn [self reads].
  destruct (Qlt_bool (total_seconds (next_trigger o - clock n)) 0);
    reflexivity.
Qed.

(** While [next_trigger] is not in the past, [remaining()] is the time
    left until it. *)
Lemma remaining_ahead (o : Timer.t) (n : nat) :
  clock n <= next_trigger o ->
  remaining clock (mkEnv o n) =
    Ok (total_seconds (next_trigger o - clock n)) (mkEnv o (S n)).
Proof.
  intro H. rewrite remaining_run.
  destruct (Qlt_bool (total_seconds (next_trigger o - clock n)) 0) eqn:E;
    [ | reflexivity ].
  apply Qlt_bool_iff in E. apply -> total_seconds_neg in E. lia.
Qed.

(** [remaining()] is never negative: it is the time left until
    [next_trigger], and 0 once that time has passed. *)
Theorem remaining_nonneg (o : Timer.t) (n : nat) :
  exists r : Q,
    remaining clock (mkEnv o n) = Ok r (mkEnv o (S n))
    /\ (0 <= r)%Q
    /\ (clock n <= next_trigger o ->
        r = total_seconds (next_trigger o - clock n))
    /\ (next_trigger o < clock n -> r = 0%Q).
Proof.
  eexists. split; [ apply remaining_run | ].
  destruct (Qlt_bool (total_seconds (next_trigger o - clock n)) 0) eqn:E.
  - apply Qlt_bool_iff in E. apply -> total_seconds_neg in E.
    split; [ apply Qle_refl | ]. split; [ intro; lia | reflexivity ].
  - assert (H : ~ next_trigger o - clock n < 0).
    { intro H. apply <- total_seconds_neg in H.
      apply <- Qlt_bool_iff in H. congruence. }
    split; [ | split; [ reflexivity | intro; lia ] ].
    apply Qnot_lt_le. intro L. apply H. apply -> total_seconds_neg. exact L.
Qed.

(** [restart()] returns true, sets [next_trigger] one period after the
    clock, whatever it was before, and clears [force_trigger]; read at the
    same clock time, [remaining()] is then the period. *)
Theorem restart_spec (o : Timer.t) (n : nat) :
  restart clock (mkEnv o n) =
    Ok true
       (mkEnv (mk (period o) (clock n + timedelta (period o))
                  (skip_events o) false)
              (S n))
  /\ (1 <= period o -> clock (S n) = clock n ->
      exists r : Q,
        remaining clock (final (restart clock (mkEnv o n))) =
          Ok r (mkEnv (mk (period o) (clock n + timedelta (period o))
                          (skip_events o) false)
                      (S (S n)))
        /\ (r == inject_Z (period o))%Q).
Proof.
  split; [ reflexivity | ].
  intros Hp Hsame.
  change (final (restart clock (mkEnv o n)))
    with (mkEnv (mk (period o) (clock n + timedelta (period o))
                    (skip_events o) false) (S n)).
  eexists. split.
  - rewrite remaining_ahead; cbn [next_trigger].
    + reflexivity.
    + rewrite Hsame. unfold timedelta. lia.
  - rewrite Hsame.
    replace (clock n + timedelta (period o) - clock n)
      with (timedelta (period o)) by lia.
    apply total_seconds_timedelta.
Qed.

(** [due()] returns, given fuel enough, on every clock that lets the
    catch-up loop stop; [force_trigger] is clear afterwards. *)
Lemma due_returns (o : Timer.t) (n : nat) :
  (skip_events o = true -> catches_up clock (S n) o) ->
  exists fuel0 : nat, forall fuel : nat, (fuel0 <= fuel)%nat ->
  exists s' : Env Timer.t,
    due clock fuel (mkEnv o n) = Ok (fires o (clock n)) s'
    /\ force_trigger (self s') = false.
Proof.
  intro Hcatch.
  destruct (fires o (clock n)) eqn:F.
  - destruct (skip_events o) eqn:Hs.
    + destruct (catches_up_first (S n) o (Hcatch eq_refl))
        as (k & Hbefore & Hstop).
      exists (S k). intros fuel Hfuel. eexists. split.
      * apply (due_skip k fuel o n Hs F Hbefore Hstop). lia.
      * reflexivity.
    + exists O. intros fuel _. eexists.
      split; [ apply (due_replay fuel o n Hs F) | reflexivity ].
  - exists O. intros fuel _. eexists.
    split; [ apply (due_idle fuel o n F) | ].
    cbn [self]. unfold fires in F. apply orb_false_iff in F. tauto.
Qed.

(** On a clock whose readings are each less than a period after the one
    before, [due()] returns: the catch-up loop cannot run forever. *)
Theorem due_returns_on_slow_clock (o : Timer.t) (n : nat) :
  (forall i : nat, (S n <= i)%nat ->
     clock (S i) - clock i < timedelta (period o)) ->
  exists fuel0 : nat, forall fuel : nat, (fuel0 <= fuel)%nat ->
  exists s' : Env Timer.t,
    due clock fuel (mkEnv o n) = Ok (fires o (clock n)) s'.
Proof.
  intro Hslow.
  destruct (due_returns o n) as (fuel0 & H).
  - intros _. apply slow_clock_catches_up. exact Hslow.
  - exists fuel0. intros fuel Hfuel.
    destruct (H fuel Hfuel) as (s' & Hd & _). exists s'. exact Hd.
Qed.



End TimerFacts.

(** * Worked runs *)

(** ** ProgressTimer *)

(** With [start = 0], [target = 100] and [current = 25], [get_percent()]
    is 25. *)
Example get_percent_25 :
  exists pc : Q,
    ProgressTimer.get_percent
      (mkEnv (ProgressTimer.mk "scan" 0 25 100 0) 1%nat)
    = Ok pc (mkEnv (ProgressTimer.mk "scan" 0 25 100 0) 1%nat)
    /\ (pc == 25)%Q.
Proof.
  eexists. split.
  - apply (proj1 (get_percent_spec (ProgressTimer.mk "scan" 0 25 100 0) 1%nat)).
    simpl. discriminate.
  - vm_compute. reflexivity.
Defined.

(** Half of the work done after 10 seconds: 20 seconds in all. *)
Example get_total_seconds_20 :
  exists q : Q,
    ProgressTimer.get_total_seconds (clock_frozen (timedelta 10))
      (mkEnv (ProgressTimer.mk "scan" 0 50 100 0) 1%nat)
    = Ok q (mkEnv (ProgressTimer.mk "scan" 0 50 100 0) 2%nat)
    /\ (q == 20)%Q.
Proof.
  apply (get_total_seconds_spec (clock_frozen (timedelta 10))
           (ProgressTimer.mk "scan" 0 50 100 0) 1%nat); reflexivity.
Defined.

(** ** Timer *)

(** A [Timer(5)] made at time 0 and polled at 12 seconds: [due()] fires and
    moves [next_trigger] forward. *)
Example due_spec_witness :
  1 <= Timer.period (Timer.mk 5 (timedelta 5) true false)
  /\ catches_up clock_12s 2 (Timer.mk 5 (timedelta 5) true false)
  /\ exists (fuel : nat) (o' : Timer.t) (n' : nat),
       Timer.due clock_12s fuel (mkEnv (Timer.mk 5 (timedelta 5) true false) 1)
       = Ok true (mkEnv o' n')
       /\ Timer.force_trigger o' = false
       /\ timedelta 5 < Timer.next_trigger o'.
Proof.
  assert (H1 : 1 <= Timer.period (Timer.mk 5 (timedelta 5) true false))
    by (simpl; lia).
  assert (H2 : catches_up clock_12s 2 (Timer.mk 5 (timedelta 5) true false))
    by (exists 2%nat; vm_compute; reflexivity).
  split; [ exact H1 | ]. split; [ exact H2 | ].
  destruct (due_spec clock_12s (Timer.mk 5 (timedelta 5) true false) 1 H1
              (fun _ => H2)) as (fuel0 & H).
  destruct (H fuel0 (le_n fuel0)) as (o' & n' & Hd & _ & _ & Ht).
  destruct (Ht eq_refl) as (Hf & _ & _ & _ & _ & Hadv).
  exists fuel0, o', n'. split; [ exact Hd | ]. split; [ exact Hf | ].
  apply Hadv. intros [_ Hc]. vm_compute in Hc. discriminate.
Defined.

(** C1 as stated fails: a forced [due()] on a timer that skips missed events
    and is not yet due returns true and leaves [next_trigger] where it
    was. *)
Example due_forced_early_does_not_advance :
  exists s' : Env Timer.t,
    Timer.due (clock_frozen 0) 1
      (mkEnv (Timer.mk 5 (timedelta 10) true true) O) = Ok true s'
    /\ ~ Timer.next_trigger (Timer.mk 5 (timedelta 10) true true)
         < Timer.next_trigger (self s').
Proof.
  eexists. split; [ vm_compute; reflexivity | ].
  vm_compute. intro H; discriminate.
Qed.

(** The run of C2 on the clock that shows 12 seconds at the poll. *)
Example due_after_12s_skip_witness :
  Timer.due clock_12s 3 (Timer.init clock_12s 5 0 true O)
  = Ok true (mkEnv (Timer.mk 5 (timedelta 15) true false) 5%nat).
Proof.
  apply (due_after_12s_skip clock_12s 0 3).
  - reflexivity.
  - intros [ | i] Hi; [ lia | ]. unfold clock_12s, timedelta. lia.
  - lia.
Defined.

(** C2 as stated fails: polled at 12 seconds, the timer's [next_trigger]
    becomes 15 seconds, not the 17 seconds that are [now + 5]. *)
Example due_after_12s_is_not_now_plus_5 :
  exists s' : Env Timer.t,
    Timer.due clock_12s 3 (Timer.init clock_12s 5 0 true O) = Ok true s'
    /\ Timer.next_trigger (self s') = clock_12s 1%nat + timedelta 3
    /\ Timer.next_trigger (self s') <> clock_12s 1%nat + timedelta 5.
Proof.
  eexists. split; [ vm_compute; reflexivity | ].
  split; [ vm_compute; reflexivity | vm_compute; intro H; discriminate ].
Qed.

(** The same timer with [skip=False]: two firings in a row. *)
Example due_replay_witness :
  Timer.skip_events (Timer.mk 5 (timedelta 5) false false) = false
  /\ exists s1 s2 : Env Timer.t,
       Timer.due clock_12s 0 (mkEnv (Timer.mk 5 (timedelta 5) false false) 1)
       = Ok true s1
       /\ Timer.next_trigger (self s1) = timedelta 10
       /\ Timer.due clock_12s 0 s1 = Ok true s2
       /\ Timer.next_trigger (self s2) = timedelta 15.
Proof.
  split; [ reflexivity | ].
  destruct (proj2 (due_replay_spec clock_12s 0
                     (Timer.mk 5 (timedelta 5) false false) 1 eq_refl))
    as (s1 & s2 & H1 & H2 & _ & H3 & H4).
  - vm_compute; reflexivity.
  - vm_compute; reflexivity.
  - exists s1, s2. repeat split; assumption.
Defined.

(** A timer with 10 seconds to go fires at once after [trigger()]. *)
Example trigger_then_due_witness :
  catches_up (clock_frozen 0) 1 (Timer.mk 5 (timedelta 10) true false)
  /\ exists (fuel : nat) (s' : Env Timer.t),
       Timer.due (clock_frozen 0) fuel
         (final (Timer.trigger
                   (mkEnv (Timer.mk 5 (timedelta 10) true false) O)))
       = Ok true s'.
Proof.
  assert (H : catches_up (clock_frozen 0) 1
                (Timer.mk 5 (timedelta 10) true false))
    by (exists O; vm_compute; reflexivity).
  split; [ exact H | ].
  destruct (proj2 (trigger_then_due (clock_frozen 0)
                     (Timer.mk 5 (timedelta 10) true false) O (fun _ => H)))
    as (fuel0 & Hd).
  exists fuel0. apply Hd. apply le_n.
Defined.

(** A [Timer(5, offset=3)] polled at once is not due. *)
Example init_spec_witness :
  1 <= 5
  /\ Timer.due (clock_frozen 0) 0 (Timer.init (clock_frozen 0) 5 3 true O)
     = Ok false (mkEnv (Timer.mk 5 (timedelta 3) true false) 2%nat).
Proof.
  split; [ lia | ].
  apply (init_spec (clock_frozen 0) 5 3 true O O); [ lia | ].
  vm_compute; reflexivity.
Defined.



(** A [Timer(0)] has period 1, and keeps it through any calls. *)
Example period_invariant_witness :
  Timer.period
    (self (final (invoke_all clock_12s 4
                    [CallTrigger; CallDue; CallWait; CallRestart;
                     CallElapsedPc; CallRemaining; CallElapsed]
                    (Timer.init clock_12s 0 0 true O))))
  = 1.
Proof.
  apply (period_invariant clock_12s 0 0 true O 4
           [CallTrigger; CallDue; CallWait; CallRestart;
            CallElapsedPc; CallRemaining; CallElapsed]).
Defined.


(** Ten seconds before the tick [remaining()] is 10. *)
Example remaining_10 :
  exists r : Q,
    Timer.remaining (clock_frozen 0)
      (mkEnv (Timer.mk 5 (timedelta 10) true false) O)
    = Ok r (mkEnv (Timer.mk 5 (timedelta 10) true false) 1%nat)
    /\ (r == 10)%Q.
Proof.
  destruct (remaining_nonneg (clock_frozen 0)
              (Timer.mk 5 (timedelta 10) true false) O)
    as (r & Hr & _ & Hleft & _).
  exists r. split; [ exact Hr | ].
  rewrite Hleft; [ vm_compute; reflexivity | vm_compute; discriminate ].
Defined.

(** A timer 7 seconds overdue has 5 seconds to go after [restart()]. *)
Example restart_spec_witness :
  exists r : Q,
    Timer.remaining (clock_frozen (timedelta 12))
      (final (Timer.restart (clock_frozen (timedelta 12))
                (mkEnv (Timer.mk 5 (timedelta 5) false true) 1%nat)))
    = Ok r (mkEnv (Timer.mk 5 (timedelta 17) false false) 3%nat)
    /\ (r == 5)%Q.
Proof.
  apply (proj2 (restart_spec (clock_frozen (timedelta 12))
                  (Timer.mk 5 (timedelta 5) false true) 1%nat));
    [ simpl; lia | reflexivity ].
Defined.

(** On the ticking clock a [due()] of an overdue five-second timer
    returns. *)
Example due_returns_on_slow_clock_witness :
  exists (fuel : nat) (s' : Env Timer.t),
    Timer.due clock_ticking fuel
      (mkEnv (Timer.mk 5 (timedelta 5) true false) 3%nat)
    = Ok true s'.
Proof.
  destruct (due_returns_on_slow_clock clock_ticking
              (Timer.mk 5 (timedelta 5) true false) 3%nat)
    as (fuel0 & H).
  - intros i _. unfold clock_ticking, timedelta; cbn [Timer.period].
    rewrite Nat2Z.inj_succ. lia.
  - exists fuel0. apply (H fuel0 (le_n fuel0)).
Defined.


(** * Further properties *)

(** ** Rounding to the nearest integer *)

Lemma round_half_even_comp (x y : Q) :
  (x == y)%Q -> round_half_even x = round_half_even y.
Proof.
  intro H. unfold round_half_even.
  assert (Hf : Qfloor x = Qfloor y) by (apply Qfloor_comp; exact H).
  rewrite Hf.
  assert (Hc : (x - inject_Z (Qfloor y) ?= 1 # 2)%Q
               = (y - inject_Z (Qfloor y) ?= 1 # 2)%Q).
  { apply Qcompare_comp; [ rewrite H; reflexivity | reflexivity ]. }
  rewrite Hc. reflexivity.
Qed.

(** An integer rounds to itself. *)
Lemma round_half_even_inject_Z (d : Z) : round_half_even (inject_Z d) = d.
Proof.
  unfold round_half_even. rewrite Qfloor_Z.
  assert (H : (inject_Z d - inject_Z d ?= 1 # 2)%Q = Lt).
  { apply (proj1 (Qlt_alt _ _)). lra. }
  rewrite H. reflexivity.
Qed.

(** Rounding never goes below an integer the number has reached. *)
Lemma round_half_even_ge (d : Z) (x : Q) :
  (inject_Z d <= x)%Q -> d <= round_half_even x.
Proof.
  intro H. apply Qfloor_resp_le in H. rewrite Qfloor_Z in H.
  unfold round_half_even.
  destruct (x - inject_Z (Qfloor x) ?= 1 # 2)%Q;
    [ destruct (Z.even (Qfloor x)) | | ]; lia.
Qed.

(** Rounding never goes above an integer the number stays below. *)
Lemma round_half_even_le (d : Z) (x : Q) :
  (x <= inject_Z d)%Q -> round_half_even x <= d.
Proof.
  intro H. unfold round_half_even.
  destruct (Qfloor_bounds x) as [Hlo Hhi].
  assert (Hf : Qfloor x <= d).
  { apply Qfloor_resp_le in H. rewrite Qfloor_Z in H. exact H. }
  destruct (Z.eq_dec (Qfloor x) d) as [E | E].
  - assert (Hx : (x - inject_Z (Qfloor x) ?= 1 # 2)%Q = Lt).
    { apply (proj1 (Qlt_alt _ _)). rewrite E. lra. }
    rewrite Hx. lia.
  - destruct (x - inject_Z (Qfloor x) ?= 1 # 2)%Q;
      [ destruct (Z.even (Qfloor x)) | | ]; lia.
Qed.

Lemma round_half_even_floor (x : Q) :
  Qfloor x <= round_half_even x <= Qfloor x + 1.
Proof.
  unfold round_half_even.
  destruct (x - inject_Z (Qfloor x) ?= 1 # 2)%Q;
    [ destruct (Z.even (Qfloor x)) | | ]; lia.
Qed.

Ltac compare_to_order H :=
  first [ apply (proj2 (Qeq_alt _ _)) in H
        | apply (proj2 (Qlt_alt _ _)) in H
        | apply (proj2 (Qgt_alt _ _)) in H ].

(** Rounding keeps the order. *)
Lemma round_half_even_mono (x y : Q) :
  (x <= y)%Q -> round_half_even x <= round_half_even y.
Proof.
  intro H. assert (Hf := Qfloor_resp_le _ _ H).
  assert (Hx := round_half_even_floor x).
  assert (Hy := round_half_even_floor y).
  destruct (Z.eq_dec (Qfloor x) (Qfloor y)) as [E | E]; [ | lia ].
  clear Hx Hy. unfold round_half_even. rewrite E.
  destruct (y - inject_Z (Qfloor y) ?= 1 # 2)%Q eqn:Cy;
    destruct (x - inject_Z (Qfloor y) ?= 1 # 2)%Q eqn:Cx;
    try (destruct (Z.even (Qfloor y))); try lia;
    exfalso; compare_to_order Cx; compare_to_order Cy; lra.
Qed.

(** ** ProgressTimer: percent, total time and ETA *)

Lemma Qdiv_inject_Z_opp (a d : Z) :
  d <> 0 -> (inject_Z (- a) / inject_Z (- d) == inject_Z a / inject_Z d)%Q.
Proof.
  intro Hd. rewrite !inject_Z_opp. field.
  apply inject_Z_nonzero; exact Hd.
Qed.

(** A share [a] of a positive whole [d], as a percentage. *)
Lemma percent_range_pos (a d : Z) :
  0 < d -> 0 <= a <= d ->
  (0 <= inject_Z (100 * a) / inject_Z d
   /\ inject_Z (100 * a) / inject_Z d <= 100)%Q.
Proof.
  intros Hd Ha.
  assert (Hq : (0 < inject_Z d)%Q).
  { change 0%Q with (inject_Z 0). rewrite <- Zlt_Qlt. exact Hd. }
  split.
  - apply Qle_shift_div_l; [ exact Hq | ].
    rewrite Qmult_0_l. change 0%Q with (inject_Z 0).
    rewrite <- Zle_Qle. lia.
  - apply Qle_shift_div_r; [ exact Hq | ].
    change 100%Q with (inject_Z 100).
    rewrite <- inject_Z_mult, <- Zle_Qle. lia.
Qed.

Section ProgressTimerMore.

Import ProgressTimer.

Variable clock : Clock.

Lemma get_percent_run (o : ProgressTimer.t) (n : nat) :
  target o <> start o ->
  get_percent (mkEnv o n) = Ok (percent_of o) (mkEnv o n).
Proof. apply get_percent_defined. Qed.

Lemma percent_of_zero_iff (o : ProgressTimer.t) :
  target o <> start o ->
  ((percent_of o == 0)%Q <-> current o = start o).
Proof.
  intro Ht. unfold percent_of. split.
  - intro H. destruct (Z.eq_dec (current o) (start o)) as [E | E];
      [ exact E | exfalso ].
    revert H. apply Qdiv_nonzero; apply inject_Z_nonzero; lia.
  - intros ->. rewrite Z.sub_diag. unfold Qdiv.
    change (inject_Z (100 * 0)) with 0%Q. apply Qmult_0_l.
Qed.

Lemma percent_of_hundred_iff (o : ProgressTimer.t) :
  target o <> start o ->
  ((percent_of o == 100)%Q <-> current o = target o).
Proof.
  intro Ht. unfold percent_of.
  assert (Hd : ~ (inject_Z (target o - start o) == 0)%Q)
    by (apply inject_Z_nonzero; lia).
  split.
  - intro H.
    assert (E : (inject_Z (100 * (current o - start o))
                 == inject_Z (100 * (target o - start o)))%Q).
    { rewrite <- (Qmult_div_r (inject_Z (100 * (current o - start o)))
                    (inject_Z (target o - start o)) Hd), H.
      rewrite (inject_Z_mult 100). change (inject_Z 100) with 100%Q. ring. }
    apply (proj1 (inject_Z_injective _ _)) in E. lia.
  - intros ->. rewrite inject_Z_mult. change (inject_Z 100) with 100%Q.
    field. exact Hd.
Qed.

Lemma percent_of_range (o : ProgressTimer.t) :
  target o <> start o ->
  (start o <= current o <= target o \/ target o <= current o <= start o) ->
  (0 <= percent_of o /\ percent_of o <= 100)%Q.
Proof.
  intros Ht Hbetween. unfold percent_of.
  destruct (Z.lt_trichotomy (target o) (start o)) as [Hlt | [Heq | Hgt]];
    [ | contradiction | ].
  - rewrite <- (Qdiv_inject_Z_opp (100 * (current o - start o))
                  (target o - start o) ltac:(lia)).
    replace (- (100 * (current o - start o)))
      with (100 * (start o - current o)) by lia.
    apply percent_range_pos; lia.
  - apply percent_range_pos; lia.
Qed.

(** X5. While [current] lies between [start] and [target], whichever of the
    two is the larger, [get_percent()] lies between 0 and 100; it is 0
    exactly at [current == start] and 100 exactly at [current == target]. *)
Theorem get_percent_bounds (o : ProgressTimer.t) (n : nat) :
  target o <> start o ->
  (start o <= current o <= target o \/ target o <= current o <= start o) ->
  exists pc : Q,
    get_percent (mkEnv o n) = Ok pc (mkEnv o n)
    /\ (0 <= pc)%Q /\ (pc <= 100)%Q
    /\ ((pc == 0)%Q <-> current o = start o)
    /\ ((pc == 100)%Q <-> current o = target o).
Proof.
  intros Ht Hbetween. exists (percent_of o).
  split; [ apply get_percent_run; exact Ht | ].
  assert (Hr := percent_of_range o Ht Hbetween).
  split; [ apply Hr | ]. split; [ apply Hr | ].
  split; [ apply percent_of_zero_iff | apply percent_of_hundred_iff ];
    exact Ht.
Qed.

Lemma get_total_seconds_idle (o : ProgressTimer.t) (n : nat) :
  current o = start o ->
  get_total_seconds clock (mkEnv o n) = Ok 0%Q (mkEnv o n).
Proof.
  intro H. unfold get_total_seconds, bind, get; cbn [self].
  rewrite H, Z.sub_diag. reflexivity.
Qed.

Lemma get_total_seconds_run (o : ProgressTimer.t) (n : nat) :
  current o <> start o -> target o <> start o ->
  get_total_seconds clock (mkEnv o n) =
    Ok (total_seconds (clock n - start_time o) * 100 / percent_of o)%Q
       (mkEnv o (S n)).
Proof.
  intros Hc Ht.
  unfold get_total_seconds, bind at 1, get; cbn [self].
  destruct (Z.eqb_spec (current o - start o) 0); [ lia | ]; cbn [negb].
  unfold bind at 1, now_utc; cbn [self reads].
  unfold bind. rewrite (get_percent_run o (S n) Ht).
  unfold truediv. rewrite Qeq_bool_false; [ reflexivity | ].
  intro H. apply percent_of_zero_iff in H; [ contradiction | exact Ht ].
Qed.

Lemma get_total_seconds_raises (o : ProgressTimer.t) (n : nat) :
  current o <> start o -> target o = start o ->
  get_total_seconds clock (mkEnv o n) =
    Raise ZeroDivisionError (mkEnv o (S n)).
Proof.
  intros Hc Ht.
  unfold get_total_seconds, bind at 1, get; cbn [self].
  destruct (Z.eqb_spec (current o - start o) 0); [ lia | ]; cbn [negb].
  unfold bind at 1, now_utc; cbn [self reads].
  unfold bind. rewrite (get_percent_raises o (S n) Ht). reflexivity.
Qed.

Lemma get_eta_idle (o : ProgressTimer.t) (n : nat) :
  current o = start o ->
  get_eta clock (mkEnv o n) = Ok (start_time o) (mkEnv o n).
Proof.
  intro H. unfold get_eta, bind at 1.
  rewrite (get_total_seconds_idle o n H). reflexivity.
Qed.

Lemma get_eta_raises (o : ProgressTimer.t) (n : nat) :
  current o <> start o -> target o = start o ->
  get_eta clock (mkEnv o n) = Raise ZeroDivisionError (mkEnv o (S n)).
Proof.
  intros Hc Ht. unfold get_eta, bind at 1.
  rewrite (get_total_seconds_raises o n Hc Ht). reflexivity.
Qed.

Lemma get_eta_run (o : ProgressTimer.t) (n : nat) :
  current o <> start o -> target o <> start o ->
  get_eta clock (mkEnv o n) =
    Ok (if Qeq_bool
             (total_seconds (clock n - start_time o) * 100 / percent_of o) 0
        then start_time o
        else start_time o
             + round_half_even
                 (total_seconds (clock n - start_time o) * 100
                  / percent_of o * inject_Z 1000000))
       (mkEnv o (S n)).
Proof.
  intros Hc Ht. unfold get_eta, bind at 1.
  rewrite (get_total_seconds_run o n Hc Ht).
  unfold bind, get; cbn [self].
  destruct (Qeq_bool _ 0); reflexivity.
Qed.

(** The projected duration in microseconds: the elapsed microseconds scaled
    by [100 / percent]. *)
Lemma total_microseconds (d : Z) (pc : Q) :
  ~ (pc == 0)%Q ->
  (total_seconds d * 100 / pc * inject_Z 1000000
   == inject_Z d * 100 / pc)%Q.
Proof.
  intro H. unfold total_seconds.
  change (inject_Z 1000000) with (1000000 # 1)%Q. field. exact H.
Qed.

(** X6. A ProgressTimer made without [initial] has made no progress:
    [get_total_seconds()] returns 0 and [get_eta()] returns the construction
    time, without reading the clock and without dividing, so also when
    [target == start]. *)
Theorem fresh_progress_timer (name : string) (target start : Z) (n : nat) :
  get_total_seconds clock (init clock name target start None n)
  = Ok 0%Q (init clock name target start None n)
  /\ get_eta clock (init clock name target start None n)
     = Ok (clock n) (init clock name target start None n)
  /\ reads (init clock name target start None n) = S n.
Proof.
  unfold init. split; [ | split; [ | reflexivity ] ].
  - apply get_total_seconds_idle. reflexivity.
  - rewrite get_eta_idle; reflexivity.
Qed.

(** X7. [get_eta()] raises [ZeroDivisionError] exactly when
    [target == start] while [current != start]: the error of
    [get_percent()] reaches the caller through [get_total_seconds()], after
    one reading of the clock and with the object as it was. *)
Theorem get_eta_raises_iff (o : ProgressTimer.t) (n : nat) :
  ((exists s', get_eta clock (mkEnv o n) = Raise ZeroDivisionError s')
   <-> current o <> start o /\ target o = start o)
  /\ (current o <> start o -> target o = start o ->
      get_eta clock (mkEnv o n) = Raise ZeroDivisionError (mkEnv o (S n))).
Proof.
  split; [ | apply get_eta_raises ].
  destruct (Z.eq_dec (current o) (start o)) as [Hc | Hc].
  - rewrite (get_eta_idle o n Hc).
    split; [ intros (s' & H); discriminate | intros [H _]; contradiction ].
  - destruct (Z.eq_dec (target o) (start o)) as [Ht | Ht].
    + rewrite (get_eta_raises o n Hc Ht).
      split; [ auto | intros _; eexists; reflexivity ].
    + rewrite (get_eta_run o n Hc Ht).
      split; [ intros (s' & H); discriminate | intros [_ H]; contradiction ].
Qed.

(** X8. Once [current] has reached [target], [get_eta()] is the present:
    it returns the very clock reading it takes. *)
Theorem get_eta_at_target (o : ProgressTimer.t) (n : nat) :
  target o <> start o -> current o = target o ->
  get_eta clock (mkEnv o n) = Ok (clock n) (mkEnv o (S n)).
Proof.
  intros Ht Hc.
  assert (Hc' : current o <> start o) by lia.
  rewrite (get_eta_run o n Hc' Ht). f_equal.
  assert (Hpc : (percent_of o == 100)%Q)
    by (apply percent_of_hundred_iff; assumption).
  assert (Hnz : ~ (percent_of o == 0)%Q).
  { intro H. apply percent_of_zero_iff in H; [ contradiction | exact Ht ]. }
  assert (HT : (total_seconds (clock n - start_time o) * 100 / percent_of o
                * inject_Z 1000000
                == inject_Z (clock n - start_time o))%Q).
  { rewrite (total_microseconds _ _ Hnz), Hpc. field. }
  destruct (Qeq_bool _ 0) eqn:E.
  - apply Qeq_bool_iff in E. rewrite E in HT.
    rewrite Qmult_0_l in HT. symmetry in HT.
    apply (proj1 (inject_Z_injective _ 0)) in HT. lia.
  - rewrite (round_half_even_comp _ _ HT), round_half_even_inject_Z. lia.
Qed.

(** X9. While [current] is past [start] and not past [target], and the
    clock is not before [start_time], the ETA is not before the clock
    reading it was computed from. *)
Theorem get_eta_not_before_now (o : ProgressTimer.t) (n : nat) :
  (start o < current o <= target o \/ target o <= current o < start o) ->
  start_time o <= clock n ->
  exists eta : Z,
    get_eta clock (mkEnv o n) = Ok eta (mkEnv o (S n))
    /\ clock n <= eta.
Proof.
  intros Hbetween Hnow.
  assert (Ht : target o <> start o) by lia.
  assert (Hc : current o <> start o) by lia.
  eexists. split; [ apply (get_eta_run o n Hc Ht) | ].
  destruct (percent_of_range o Ht ltac:(lia)) as [Hlo Hhi].
  assert (Hnz : ~ (percent_of o == 0)%Q)
    by (rewrite (percent_of_zero_iff o Ht); exact Hc).
  assert (Hpos : (0 < percent_of o)%Q).
  { apply Qnot_le_lt. intro H. apply Hnz. apply Qle_antisym; assumption. }
  assert (Hd : (0 <= inject_Z (clock n - start_time o))%Q).
  { change 0%Q with (inject_Z 0). rewrite <- Zle_Qle. lia. }
  assert (HT : (inject_Z (clock n - start_time o)
                <= total_seconds (clock n - start_time o) * 100
                   / percent_of o * inject_Z 1000000)%Q).
  { rewrite (total_microseconds _ _ Hnz).
    apply Qle_shift_div_l; [ exact Hpos | ].
    rewrite (Qmult_comm _ (percent_of o)), (Qmult_comm _ 100).
    apply Qmult_le_compat_r; assumption. }
  destruct (Qeq_bool _ 0) eqn:E.
  - apply Qeq_bool_iff in E. rewrite E, Qmult_0_l in HT.
    change 0%Q with (inject_Z 0) in HT. rewrite <- Zle_Qle in HT. lia.
  - apply round_half_even_ge in HT. lia.
Qed.

(** Whether or not the projected duration is zero, the ETA is [start_time]
    plus that duration in whole microseconds. *)
Lemma eta_branch (st : Z) (T : Q) :
  (if Qeq_bool T 0 then st
   else st + round_half_even (T * inject_Z 1000000))
  = st + round_half_even (T * inject_Z 1000000).
Proof.
  destruct (Qeq_bool T 0) eqn:E; [ | reflexivity ].
  apply Qeq_bool_iff in E.
  assert (H : (T * inject_Z 1000000 == inject_Z 0)%Q)
    by (rewrite E; apply Qmult_0_l).
  rewrite (round_half_even_comp _ _ H), round_half_even_inject_Z. lia.
Qed.

Lemma percent_of_mono (o : ProgressTimer.t) (c : Z) :
  start o < target o -> current o <= c ->
  (percent_of o <= percent_of (set_current c o))%Q.
Proof.
  intros Ht Hc. unfold percent_of; cbn [current start target set_current].
  assert (Hq : (0 < inject_Z (target o - start o))%Q).
  { change 0%Q with (inject_Z 0). rewrite <- Zlt_Qlt. lia. }
  apply Qle_shift_div_l; [ exact Hq | ].
  rewrite Qmult_comm, Qmult_div_r.
  - rewrite <- Zle_Qle. lia.
  - intro H. rewrite H in Hq. discriminate.
Qed.

(** A larger percentage projects a shorter run, the time spent being the
    same. *)
Lemma Qdiv_antitone (a p q : Q) :
  (0 <= a)%Q -> (0 < p)%Q -> (p <= q)%Q -> (a / q <= a / p)%Q.
Proof.
  intros Ha Hp Hpq.
  assert (Hq : (0 < q)%Q) by (apply (Qlt_le_trans _ p); assumption).
  assert (Hnz : ~ (q == 0)%Q) by (intro H; rewrite H in Hq; discriminate).
  assert (H0 : (0 <= a / q)%Q).
  { apply Qle_shift_div_l; [ exact Hq | ]. rewrite Qmult_0_l. exact Ha. }
  apply Qle_shift_div_l; [ exact Hp | ].
  apply (Qle_trans _ (a / q * q)).
  - rewrite !(Qmult_comm (a / q)). apply Qmult_le_compat_r; assumption.
  - rewrite Qmult_comm, (Qmult_div_r a q Hnz). apply Qle_refl.
Qed.

(** X10. At one and the same clock reading that is not before
    [start_time], a count further on gives an ETA that is no later: with
    [start < target] and [current] past [start], [update_count(c)] with
    [c >= current] never moves [get_eta()] to a later time. *)
Theorem get_eta_antitone (o : ProgressTimer.t) (c : Z) (n : nat) :
  start o < target o ->
  start o < current o <= c ->
  start_time o <= clock n ->
  exists eta1 eta2 : Z,
    get_eta clock (mkEnv o n) = Ok eta1 (mkEnv o (S n))
    /\ (update_count c ;;; get_eta clock) (mkEnv o n)
       = Ok eta2 (mkEnv (set_current c o) (S n))
    /\ eta2 <= eta1.
Proof.
  intros Ht Hc Hnow.
  change ((update_count c ;;; get_eta clock) (mkEnv o n))
    with (get_eta clock (mkEnv (set_current c o) n)).
  assert (Ht1 : target o <> start o) by lia.
  assert (Hc1 : current o <> start o) by lia.
  assert (Hc2 : current (set_current c o) <> start (set_current c o))
    by (cbn [current start set_current]; lia).
  eexists; eexists.
  split; [ apply (get_eta_run o n Hc1 Ht1) | ].
  split; [ apply (get_eta_run (set_current c o) n Hc2 Ht1) | ].
  rewrite !eta_branch. cbn [start_time set_current].
  apply Z.add_le_mono_l, round_half_even_mono.
  assert (Hp1 : (0 < percent_of o)%Q).
  { unfold percent_of. apply Qlt_shift_div_l.
    - change 0%Q with (inject_Z 0). rewrite <- Zlt_Qlt. lia.
    - rewrite Qmult_0_l. change 0%Q with (inject_Z 0).
      rewrite <- Zlt_Qlt. lia. }
  assert (Hmono := percent_of_mono o c Ht (proj2 Hc)).
  assert (Hp2 : (0 < percent_of (set_current c o))%Q)
    by (apply (Qlt_le_trans _ (percent_of o)); assumption).
  rewrite !total_microseconds
    by (intro H; first [ rewrite H in Hp1 | rewrite H in Hp2 ]; discriminate).
  apply Qdiv_antitone; [ | exact Hp1 | exact Hmono ].
  apply Qmult_le_0_compat; [ | discriminate ].
  change 0%Q with (inject_Z 0). rewrite <- Zle_Qle. lia.
Qed.

End ProgressTimerMore.

(** ** Timer: elapsed and remaining time *)

Lemma total_seconds_plus (a b : Z) :
  (total_seconds (a + b) == total_seconds a + total_seconds b)%Q.
Proof.
  unfold total_seconds. rewrite inject_Z_plus.
  change (inject_Z 1000000) with (1000000 # 1)%Q. field.
Qed.

Lemma total_seconds_pos (d : Z) : 0 < d -> (0 < total_seconds d)%Q.
Proof.
  intro H. unfold total_seconds, Qlt; simpl. lia.
Qed.

Section TimerMore.

Import Timer.

Variable clock : Clock.

(** X11. Read at the same clock time, [elapsed()] and [remaining()] add up
    to the period as long as the timer is not overdue; once it is overdue
    [remaining()] is 0 and [elapsed()] exceeds the period. *)
Theorem elapsed_plus_remaining (o : Timer.t) (n : nat) :
  exists e r : Q,
    elapsed clock (mkEnv o n) = Ok e (mkEnv o (S n))
    /\ remaining clock (mkEnv o n) = Ok r (mkEnv o (S n))
    /\ (clock n <= next_trigger o -> (e + r == inject_Z (period o))%Q)
    /\ (next_trigger o < clock n ->
        r = 0%Q /\ (inject_Z (period o) < e)%Q).
Proof.
  eexists; eexists.
  split; [ apply elapsed_run | ]. split; [ apply remaining_run | ].
  split.
  - intro H.
    destruct (Qlt_bool (total_seconds (next_trigger o - clock n)) 0) eqn:E.
    + apply Qlt_bool_iff in E. apply -> total_seconds_neg in E. lia.
    + rewrite <- total_seconds_plus.
      replace (clock n - (next_trigger o - timedelta (period o))
               + (next_trigger o - clock n))
        with (timedelta (period o)) by lia.
      apply total_seconds_timedelta.
  - intro H.
    assert (E : Qlt_bool (total_seconds (next_trigger o - clock n)) 0 = true).
    { apply Qlt_bool_iff. apply <- total_seconds_neg. lia. }
    rewrite E. split; [ reflexivity | ].
    replace (clock n - (next_trigger o - timedelta (period o)))
      with ((clock n - next_trigger o) + timedelta (period o)) by lia.
    rewrite total_seconds_plus, total_seconds_timedelta.
    assert (Hpos := total_seconds_pos (clock n - next_trigger o) ltac:(lia)).
    lra.
Qed.

(** ** Timer: where a firing leaves [next_trigger] *)

(** X12. A firing [due()] of a timer that skips missed events leaves
    [next_trigger] on the timer's grid (the old value plus a whole number
    of periods) at the first grid point that is after the clock as the loop
    read it; a poll that then reads a clock not past that point returns
    false. *)
Theorem due_skip_lands_after_clock (o : Timer.t) (n : nat) :
  skip_events o = true ->
  fires o (clock n) = true ->
  catches_up clock (S n) o ->
  exists k : nat,
    (forall j : nat, (j < k)%nat ->
       next_trigger o + Z.of_nat j * timedelta (period o)
       <= clock (S n + j)%nat)
    /\ clock (S n + k)%nat
       < next_trigger o + Z.of_nat k * timedelta (period o)
    /\ forall fuel : nat, (k < fuel)%nat ->
       due clock fuel (mkEnv o n) =
         Ok true
            (mkEnv (mk (period o)
                       (next_trigger o + Z.of_nat k * timedelta (period o))
                       true false)
                   (S (S n + k)))
       /\ (clock (S (S n + k))
           <= next_trigger o + Z.of_nat k * timedelta (period o) ->
           forall fuel' : nat,
             due clock fuel'
               (mkEnv (mk (period o)
                          (next_trigger o
                           + Z.of_nat k * timedelta (period o))
                          true false)
                      (S (S n + k)))
             = Ok false
                  (mkEnv (mk (period o)
                             (next_trigger o
                              + Z.of_nat k * timedelta (period o))
                             true false)
                         (S (S (S n + k))))).
Proof.
  intros Hs F Hcatch.
  destruct (catches_up_first clock (S n) o Hcatch) as (k & Hbefore & Hstop).
  exists k. split; [ exact Hbefore | ]. split; [ exact Hstop | ].
  intros fuel Hfuel. split.
  - apply (due_skip clock k fuel o n Hs F Hbefore Hstop Hfuel).
  - intros Hle fuel'. apply due_idle.
    unfold fires; cbn [next_trigger force_trigger].
    rewrite orb_false_r. apply Z.ltb_ge. exact Hle.
Qed.

(** X13. A timer that replays missed events fires once for every period
    that has passed: if the clock is past [next_trigger] plus [j] periods at
    the [j]-th of [m] polls and not past [next_trigger] plus [m] periods at
    the next, those [m] polls return true, one period being added each time,
    and the following poll returns false. *)
Theorem due_replay_count (m : nat) :
  forall (fuel : nat) (o : Timer.t) (n : nat),
    skip_events o = false ->
    force_trigger o = false ->
    (forall j : nat, (j < m)%nat ->
       next_trigger o + Z.of_nat j * timedelta (period o)
       < clock (n + j)%nat) ->
    clock (n + m)%nat
    <= next_trigger o + Z.of_nat m * timedelta (period o) ->
    due_n clock fuel (S m) (mkEnv o n) =
      Ok (repeat true m ++ [false])
         (mkEnv (mk (period o)
                    (next_trigger o + Z.of_nat m * timedelta (period o))
                    false false)
                (n + S m)).
Proof.
  induction m as [ | m IH]; intros fuel o n Hs Hf Hpast Hstop.
  - rewrite Nat.add_0_r in Hstop. change (Z.of_nat 0) with 0 in *.
    cbn [due_n]. unfold bind at 1.
    rewrite due_idle.
    + unfold bind, ret. cbn [repeat app].
      replace (n + 1)%nat with (S n) by lia. do 2 f_equal.
      destruct o as [p nt sk fo]; cbn in *. subst. f_equal. lia.
    + unfold fires. rewrite Hf, orb_false_r. apply Z.ltb_ge. lia.
  - assert (F : fires o (clock n) = true).
    { apply fires_iff. left. specialize (Hpast O ltac:(lia)).
      rewrite Nat.add_0_r in Hpast. change (Z.of_nat 0) with 0 in Hpast.
      lia. }
    change (due_n clock fuel (S (S m)))
      with (b <- due clock fuel ;;
            bs <- due_n clock fuel (S m) ;; ret (b :: bs)).
    unfold bind at 1. rewrite (due_replay clock fuel o n Hs F).
    unfold bind at 1. rewrite IH; cbn [skip_events force_trigger period
                                       next_trigger]; try reflexivity.
    + unfold ret. cbn [repeat app]. f_equal.
      replace (S n + S m)%nat with (n + S (S m))%nat by lia.
      do 2 f_equal. rewrite (Nat2Z.inj_succ m). lia.
    + intros j Hj. specialize (Hpast (S j) ltac:(lia)).
      rewrite Nat2Z.inj_succ in Hpast.
      replace (S n + j)%nat with (n + S j)%nat by lia. lia.
    + rewrite Nat2Z.inj_succ in Hstop.
      replace (S n + m)%nat with (n + S m)%nat by lia. lia.
Qed.

(** ** Timer: forced firings and restarts *)

(** X14. [restart()] cancels a pending [trigger()] and any backlog: after
    [trigger()] and then [restart()], a [due()] whose clock reading is not
    more than one period after the reading [restart()] took returns
    false. *)
Theorem restart_cancels_trigger (fuel : nat) (o : Timer.t) (n : nat) :
  clock (S n) <= clock n + timedelta (period o) ->
  due clock fuel (final (restart clock (final (trigger (mkEnv o n)))))
  = Ok false
       (mkEnv (mk (period o) (clock n + timedelta (period o))
                  (skip_events o) false)
              (S (S n))).
Proof.
  intro H.
  change (final (restart clock (final (trigger (mkEnv o n)))))
    with (mkEnv (mk (period o) (clock n + timedelta (period o))
                    (skip_events o) false) (S n)).
  apply due_idle. unfold fires; cbn [next_trigger force_trigger].
  rewrite orb_false_r. apply Z.ltb_ge. exact H.
Qed.

(** X15. A Timer made with a negative [offset] is due at its first poll:
    its [next_trigger] lies before the construction time, so on a clock
    that does not run backwards the first [due()] returns true. *)
Theorem init_negative_offset_due (period0 offset : Z) (skip : bool)
    (n : nat) :
  offset < 0 ->
  clock n <= clock (S n) ->
  (skip = true ->
   catches_up clock (S (S n)) (self (init clock period0 offset skip n))) ->
  exists fuel0 : nat, forall fuel : nat, (fuel0 <= fuel)%nat ->
  exists s' : Env Timer.t,
    due clock fuel (init clock period0 offset skip n) = Ok true s'.
Proof.
  intros Hoff Hmono Hcatch.
  assert (E : init clock period0 offset skip n
              = mkEnv (mk (if period0 <? 1 then 1 else period0)
                          (clock n + timedelta offset) skip false) (S n)).
  { unfold init. destruct (Z.eqb_spec offset 0); [ lia | reflexivity ]. }
  rewrite E in *. cbn [self] in Hcatch.
  destruct (due_returns clock
              (mk (if period0 <? 1 then 1 else period0)
                  (clock n + timedelta offset) skip false)
              (S n) Hcatch) as (fuel0 & H).
  exists fuel0. intros fuel Hfuel.
  destruct (H fuel Hfuel) as (s' & Hd & _). exists s'.
  rewrite Hd. f_equal. apply fires_iff. left. cbn [next_trigger].
  unfold timedelta. lia.
Qed.

(** ** Timer: no call divides by zero *)

Lemma never_raises_ret {A} (a : A) : never_raises (ret a).
Proof. intros s _; reflexivity. Qed.

Lemma never_raises_bind {A B} (m : M (Env Timer.t) A)
    (k : A -> M (Env Timer.t) B) :
  never_raises m -> (forall a, never_raises (k a)) ->
  never_raises (bind m k).
Proof.
  intros Hm Hk s Hp. unfold bind. specialize (Hm s Hp).
  destruct (m s) as [a s1 | e s1 | s1]; [ | exact Hm | exact Hm ].
  specialize (Hk a s1 ltac:(rewrite Hm; exact Hp)).
  destruct (k a s1) as [b s2 | e s2 | s2]; [ | exact Hk | ];
    rewrite Hk; exact Hm.
Qed.

Lemma never_raises_get : never_raises get.
Proof. intros s _; reflexivity. Qed.

Lemma never_raises_now_utc : never_raises (now_utc clock).
Proof. intros s _; reflexivity. Qed.

Lemma never_raises_out_of_fuel {A} :
  never_raises (@out_of_fuel (Env Timer.t) A).
Proof. intros s _; reflexivity. Qed.

Lemma never_raises_sleep (x : Q) : never_raises (sleep x).
Proof. intros s _; reflexivity. Qed.

Lemma never_raises_set_next_trigger_field (v : Z) :
  never_raises (modify (set_next_trigger_field v)).
Proof. intros s _; reflexivity. Qed.

Lemma never_raises_set_force_trigger (v : bool) :
  never_raises (modify (set_force_trigger v)).
Proof. intros s _; reflexivity. Qed.

Create HintDb safe.
#[local] Hint Resolve never_raises_ret never_raises_get never_raises_now_utc
  never_raises_out_of_fuel never_raises_sleep
  never_raises_set_next_trigger_field never_raises_set_force_trigger
  : safe.

Ltac safe_step :=
  first [ solve [ auto with safe ]
        | match goal with
          | |- never_raises (if ?c then _ else _) => destruct c
          | |- never_raises (bind _ _) =>
              apply never_raises_bind; [ | intro ]
          end ].

Lemma never_raises_skip_missed (fuel : nat) :
  never_raises (skip_missed clock fuel).
Proof.
  induction fuel as [ | fuel IH]; cbn [skip_missed]; repeat safe_step.
Qed.
#[local] Hint Resolve never_raises_skip_missed : safe.

Lemma never_raises_set_next_trigger (fuel : nat) :
  never_raises (set_next_trigger clock fuel).
Proof. unfold set_next_trigger. repeat safe_step. Qed.
#[local] Hint Resolve never_raises_set_next_trigger : safe.

Lemma never_raises_due (fuel : nat) : never_raises (due clock fuel).
Proof. unfold due. repeat safe_step. Qed.
#[local] Hint Resolve never_raises_due : safe.

Lemma never_raises_remaining : never_raises (remaining clock).
Proof. unfold remaining. repeat safe_step. Qed.
#[local] Hint Resolve never_raises_remaining : safe.

Lemma never_raises_elapsed : never_raises (elapsed clock).
Proof. unfold elapsed. repeat safe_step. Qed.
#[local] Hint Resolve never_raises_elapsed : safe.

(** The one division of the class, by [period], finds it at least 1. *)
Lemma never_raises_elapsed_pc : never_raises (elapsed_pc clock).
Proof.
  intros [o n] Hp. cbn [self] in Hp.
  rewrite (elapsed_pc_run clock o n Hp). reflexivity.
Qed.
#[local] Hint Resolve never_raises_elapsed_pc : safe.

Lemma never_raises_restart : never_raises (restart clock).
Proof. unfold restart. repeat safe_step. Qed.
#[local] Hint Resolve never_raises_restart : safe.

Lemma never_raises_trigger : never_raises trigger.
Proof. unfold trigger. repeat safe_step. Qed.
#[local] Hint Resolve never_raises_trigger : safe.

Lemma never_raises_wait (fuel : nat) : never_raises (wait clock fuel).
Proof.
  induction fuel as [ | fuel IH]; cbn [wait]; repeat safe_step.
Qed.
#[local] Hint Resolve never_raises_wait : safe.

Lemma never_raises_invoke (fuel : nat) (c : call) :
  never_raises (invoke clock fuel c).
Proof. destruct c; cbn [invoke]; repeat safe_step. Qed.
#[local] Hint Resolve never_raises_invoke : safe.

Lemma never_raises_invoke_all (fuel : nat) (cs : list call) :
  never_raises (invoke_all clock fuel cs).
Proof.
  induction cs as [ | c cs IH]; cbn [invoke_all]; repeat safe_step.
Qed.

(** X16. No call on a constructed Timer divides by zero: whatever the
    arguments of the constructor and whatever calls of [due], [restart],
    [trigger], [wait], [elapsed], [elapsed_pc] and [remaining] follow, in
    any order, none ends with [ZeroDivisionError]; the division in
    [elapsed_pc] always finds a period of at least 1. *)
Theorem timer_calls_never_raise (period0 offset : Z) (skip : bool)
    (n fuel : nat) (cs : list call) (s' : Env Timer.t) :
  invoke_all clock fuel cs (init clock period0 offset skip n)
  <> Raise ZeroDivisionError s'.
Proof.
  intro H.
  assert (K := never_raises_invoke_all fuel cs
                 (init clock period0 offset skip n)).
  rewrite H in K. apply K.
  unfold init; cbn [self period]. destruct (Z.ltb_spec period0 1); lia.
Qed.

(** [elapsed_pc()] on a Timer whose [period] has been set to 0 from outside
    does raise: the constructor's clamp is what rules the exception out. *)
Lemma elapsed_pc_zero_period (o : Timer.t) (n : nat) :
  period o = 0 ->
  elapsed_pc clock (mkEnv o n) = Raise ZeroDivisionError (mkEnv o (S n)).
Proof.
  intro H. unfold elapsed_pc, bind at 1. rewrite elapsed_run.
  unfold bind at 1, get; cbn [self]. unfold bind, truediv.
  rewrite Qeq_bool_inject_Z_0, H. reflexivity.
Qed.

(** ** Timer: what [due] and [wait] return *)

Lemma set_next_trigger_ok (fuel : nat) (s s' : Env Timer.t) (u : unit) :
  set_next_trigger clock fuel s = Ok u s' ->
  force_trigger (self s') = false.
Proof.
  unfold set_next_trigger, bind, get.
  destruct (skip_events (self s)).
  - destruct (skip_missed clock fuel s); intro H;
      [ inversion H; reflexivity | discriminate | discriminate ].
  - cbn. intro H. inversion H. reflexivity.
Qed.

(** However [due()] returns, [force_trigger] is clear afterwards. *)
Lemma due_ok_force (fuel : nat) (s s' : Env Timer.t) (b : bool) :
  due clock fuel s = Ok b s' -> force_trigger (self s') = false.
Proof.
  destruct s as [o n].
  destruct (fires o (clock n)) eqn:F.
  - unfold due, bind at 1, get; cbn [self].
    unfold bind at 1, now_utc; cbn [self reads].
    unfold fires in F. rewrite F. unfold bind at 1.
    destruct (set_next_trigger clock fuel _) as [u s1 | e s1 | s1] eqn:E;
      intro H; [ | discriminate | discriminate ].
    inversion H; subst. apply (set_next_trigger_ok _ _ _ _ E).
  - rewrite (due_idle clock fuel o n F). intro H. inversion H; subst.
    cbn [self]. unfold fires in F. apply orb_false_iff in F. tauto.
Qed.

(** X17. [wait()] has one return value: whenever it returns, it returns
    true, and [force_trigger] is clear. *)
Theorem wait_only_true (fuel : nat) :
  forall (s s' : Env Timer.t) (b : bool),
    wait clock fuel s = Ok b s' ->
    b = true /\ force_trigger (self s') = false.
Proof.
  induction fuel as [ | fuel IH]; intros s s' b; cbn [wait].
  - discriminate.
  - unfold bind at 1.
    destruct (due clock (S fuel) s) as [d s1 | e s1 | s1] eqn:Hd;
      [ | discriminate | discriminate ].
    destruct d.
    + intro H. inversion H; subst. split; [ reflexivity | ].
      apply (due_ok_force _ _ _ _ Hd).
    + unfold bind at 1.
      destruct (remaining clock s1) as [t s2 | e s2 | s2];
        [ | discriminate | discriminate ].
      unfold bind at 1.
      destruct (Qlt_bool 0 t); cbn; apply IH.
Qed.





End TimerMore.

(** * Further worked runs *)

(** A quarter of the way: 25 percent. *)
Example get_percent_bounds_witness :
  exists pc : Q,
    ProgressTimer.get_percent
      (mkEnv (ProgressTimer.mk "scan" 0 25 100 0) 1%nat)
    = Ok pc (mkEnv (ProgressTimer.mk "scan" 0 25 100 0) 1%nat)
    /\ (0 <= pc)%Q /\ (pc <= 100)%Q.
Proof.
  destruct (get_percent_bounds (ProgressTimer.mk "scan" 0 25 100 0) 1%nat)
    as (pc & H & Hlo & Hhi & _).
  - simpl. discriminate.
  - simpl. lia.
  - exists pc. repeat split; assumption.
Defined.

(** A run that reaches its target after 10 seconds is expected to end
    now. *)
Example get_eta_at_target_witness :
  ProgressTimer.get_eta (clock_frozen (timedelta 10))
    (mkEnv (ProgressTimer.mk "scan" 0 100 100 0) 1%nat)
  = Ok (timedelta 10) (mkEnv (ProgressTimer.mk "scan" 0 100 100 0) 2%nat).
Proof.
  apply (get_eta_at_target (clock_frozen (timedelta 10))
           (ProgressTimer.mk "scan" 0 100 100 0) 1%nat);
    [ simpl; discriminate | reflexivity ].
Defined.

(** Half of the way after 10 seconds: the ETA is not before the 10 seconds
    that have passed. *)
Example get_eta_not_before_now_witness :
  exists eta : Z,
    ProgressTimer.get_eta (clock_frozen (timedelta 10))
      (mkEnv (ProgressTimer.mk "scan" 0 50 100 0) 1%nat)
    = Ok eta (mkEnv (ProgressTimer.mk "scan" 0 50 100 0) 2%nat)
    /\ timedelta 10 <= eta.
Proof.
  apply (get_eta_not_before_now (clock_frozen (timedelta 10))
           (ProgressTimer.mk "scan" 0 50 100 0) 1%nat).
  - left. simpl. lia.
  - simpl. unfold clock_frozen, timedelta. lia.
Defined.

(** After 10 seconds, 80 of 100 done promises an earlier end than 50 of
    100. *)
Example get_eta_antitone_witness :
  exists eta1 eta2 : Z,
    ProgressTimer.get_eta (clock_frozen (timedelta 10))
      (mkEnv (ProgressTimer.mk "scan" 0 50 100 0) 1%nat)
    = Ok eta1 (mkEnv (ProgressTimer.mk "scan" 0 50 100 0) 2%nat)
    /\ (ProgressTimer.update_count 80 ;;;
        ProgressTimer.get_eta (clock_frozen (timedelta 10)))
         (mkEnv (ProgressTimer.mk "scan" 0 50 100 0) 1%nat)
       = Ok eta2 (mkEnv (ProgressTimer.mk "scan" 0 80 100 0) 2%nat)
    /\ eta2 <= eta1.
Proof.
  apply (get_eta_antitone (clock_frozen (timedelta 10))
           (ProgressTimer.mk "scan" 0 50 100 0) 80 1%nat).
  - simpl. lia.
  - simpl. lia.
  - simpl. unfold clock_frozen, timedelta. lia.
Defined.

(** A [Timer(5)] made at 0 and polled at 12 seconds lands on 15 seconds. *)
Example due_skip_lands_after_clock_witness :
  exists k : nat,
    Timer.due clock_12s (S k)
      (mkEnv (Timer.mk 5 (timedelta 5) true false) 1%nat)
    = Ok true
         (mkEnv (Timer.mk 5 (timedelta 5 + Z.of_nat k * timedelta 5)
                          true false)
                (S (2 + k)))
    /\ clock_12s (2 + k)%nat < timedelta 5 + Z.of_nat k * timedelta 5.
Proof.
  destruct (due_skip_lands_after_clock clock_12s
              (Timer.mk 5 (timedelta 5) true false) 1%nat)
    as (k & _ & Hstop & Hrun).
  - reflexivity.
  - vm_compute. reflexivity.
  - exists 2%nat. vm_compute. reflexivity.
  - exists k. split; [ apply (Hrun (S k)); lia | exact Hstop ].
Defined.

(** The same timer with [skip=False]: true, true, false. *)
Example due_replay_count_witness :
  due_n clock_12s 0 3 (mkEnv (Timer.mk 5 (timedelta 5) false false) 1%nat)
  = Ok [true; true; false]
       (mkEnv (Timer.mk 5 (timedelta 15) false false) 4%nat).
Proof.
  apply (due_replay_count clock_12s 2 0
           (Timer.mk 5 (timedelta 5) false false) 1%nat).
  - reflexivity.
  - reflexivity.
  - intros j Hj. assert (j = 0 \/ j = 1)%nat as [-> | ->] by lia;
      vm_compute; reflexivity.
  - vm_compute. discriminate.
Defined.

(** An overdue timer with a pending trigger is quiet after [restart()]. *)
Example restart_cancels_trigger_witness :
  Timer.due (clock_frozen (timedelta 12)) 0
    (final (Timer.restart (clock_frozen (timedelta 12))
              (final (Timer.trigger
                        (mkEnv (Timer.mk 5 (timedelta 5) true false)
                               1%nat)))))
  = Ok false (mkEnv (Timer.mk 5 (timedelta 17) true false) 3%nat).
Proof.
  apply (restart_cancels_trigger (clock_frozen (timedelta 12)) 0
           (Timer.mk 5 (timedelta 5) true false) 1%nat).
  vm_compute. discriminate.
Defined.

(** A [Timer(5, offset=-3)] fires at the first poll. *)
Example init_negative_offset_due_witness :
  exists (fuel : nat) (s' : Env Timer.t),
    Timer.due (clock_frozen 0) fuel
      (Timer.init (clock_frozen 0) 5 (-3) true O)
    = Ok true s'.
Proof.
  destruct (init_negative_offset_due (clock_frozen 0) 5 (-3) true O)
    as (fuel0 & H).
  - lia.
  - apply Z.le_refl.
  - intros _. exists 1%nat. vm_compute. reflexivity.
  - exists fuel0. apply (H fuel0 (le_n fuel0)).
Defined.

(** On the ticking clock [wait()] returns true. *)
Example wait_only_true_witness :
  Timer.wait clock_ticking 5
    (mkEnv (Timer.mk 5 (timedelta 5) true false) 1%nat)
  = Ok true (mkEnv (Timer.mk 5 (timedelta 15) true false) 7%nat)
  /\ true = true
  /\ Timer.force_trigger (Timer.mk 5 (timedelta 15) true false) = false.
Proof.
  assert (H : Timer.wait clock_ticking 5
                (mkEnv (Timer.mk 5 (timedelta 5) true false) 1%nat)
              = Ok true
                   (mkEnv (Timer.mk 5 (timedelta 15) true false) 7%nat))
    by (vm_compute; reflexivity).
  split; [ exact H | ].
  apply (wait_only_true clock_ticking 5 _ _ _ H).
Defined.

